(** * DataLathe JavaScript client: the result cursor

    A shallow embedding of [DatalatheResultSet] (the scrollable cursor over
    a grid of nullable text cells), of the response entry it is built from,
    and of the chunk pump of [DatalatheClient.parseJsonStream].

    Conventions of the embedding.
    - A JavaScript [number] that is used as a row position, a row argument
      or a column index is an integer and is modelled by [Z]; fractional
      values, NaN and the loss of precision beyond 2^53 are outside the
      model.
    - The ECMAScript built-ins the cursor calls ([parseInt], [parseFloat],
      [String.prototype.toLowerCase]) are not code of the client; they are
      the fields of the class [Host], and every result below holds for any
      host.
    - A method is a function from the cursor to an outcome and the cursor
      after the call; an outcome is a returned value or a thrown
      exception. *)

From stdpp Require Import strings list pretty.

Local Open Scope string_scope.
Local Open Scope Z_scope.

(** ** The host: ECMAScript built-ins used by the cursor *)

Class Host := {
  number : Type;                      (* the values of type [number] *)
  zero : number;                      (* the literal [0] *)
  parseInt10 : string → number;       (* [parseInt(s, 10)] *)
  parseFloat : string → number;       (* [parseFloat(s)] *)
  toLowerCase : string → string;      (* [s.toLowerCase()] *)
}.

(** ** types.ts *)

(** A property of a decoded response object: missing ([undefined] when
    read), [null], or holding a value. *)
Inductive field (A : Type) : Type :=
  | Absent
  | Null
  | Has (a : A).
Arguments Absent {A}.
Arguments Null {A}.
Arguments Has {A} a.

(** [string | null] *)
Inductive cell : Type :=
  | CNull
  | CText (s : string).

Module Types.

Record SchemaField := { name : string; data_type : string }.

Record ReportResultEntry := {
  idx : string;
  result : field (list (list cell));
  data : field (list (list cell));
  error : field string;
  schema : field (list SchemaField);
}.

End Types.

(** [a ?? b]: the left operand unless it is [null] or [undefined]. *)
Definition nullish {A} (a b : field A) : field A :=
  match a with
  | Has _ => a
  | Absent | Null => b
  end.

(** [a ?? d] where [d] is a literal of the value type. *)
Definition nullish_default {A} (a : field A) (d : A) : A :=
  match a with
  | Has x => x
  | Absent | Null => d
  end.

(** ** Values and exceptions *)

(** What [this.data[r][c]] evaluates to: a cell of the grid, or
    [undefined] when the row is shorter than [c]. *)
Inductive raw : Type :=
  | RUndefined
  | RNull
  | RText (s : string).

Definition raw_of_cell (c : cell) : raw :=
  match c with
  | CNull => RNull
  | CText s => RText s
  end.

(** [value === null] *)
Definition is_null (v : raw) : bool :=
  match v with
  | RNull => true
  | _ => false
  end.

(** The exceptions thrown by the cursor. The first three are
    [new Error(message)] with the message shown; [TypeError] is what
    reading a property of [undefined] throws. *)
Inductive exn : Type :=
  | NoCurrentRow                      (* "No current row" *)
  | InvalidColumnIndex (i : Z)        (* `Invalid column index: ${i}` *)
  | ColumnNotFound (label : string)   (* `Column not found: ${label}` *)
  | TypeError.

(** [number | string] as a column reference *)
Inductive colref : Type :=
  | ByIndex (i : Z)
  | ByName (label : string).

(** [arr.findIndex(p)]: the index of the first element satisfying [p],
    [-1] when there is none. *)
Fixpoint findIndex_from {A} (p : A → bool) (l : list A) (i : Z) : Z :=
  match l with
  | [] => -1
  | x :: l' => if p x then i else findIndex_from p l' (i + 1)
  end.

Definition findIndex {A} (p : A → bool) (l : list A) : Z :=
  findIndex_from p l 0.

(** [arr[i]] for an integer [i]: [None] stands for [undefined]. *)
Definition index {A} (l : list A) (i : Z) : option A :=
  if decide (0 ≤ i) then l !! Z.to_nat i else None.

(** [arr.length] *)
Definition len {A} (l : list A) : Z := Z.of_nat (length l).

(** ** result-set.ts *)

Module DatalatheResultSet.

Import Types.

Record cursor := {
  data : list (list cell);
  schema : list SchemaField;
  currentRow : Z;
  _wasNull : bool;
}.

Definition set_currentRow (r : Z) (c : cursor) : cursor :=
  {| data := data c; schema := schema c; currentRow := r;
     _wasNull := _wasNull c |}.

Definition set_wasNull (b : bool) (c : cursor) : cursor :=
  {| data := data c; schema := schema c; currentRow := currentRow c;
     _wasNull := b |}.

(** [new DatalatheResultSet(result)] *)
Definition new (e : ReportResultEntry) : cursor :=
  {| data := nullish_default (nullish (Types.result e) (Types.data e)) [];
     schema := nullish_default (Types.schema e) [];
     currentRow := -1;
     _wasNull := false |}.

(** [get rowCount()] *)
Definition rowCount (c : cursor) : Z := len (data c).

(** *** Cursor navigation *)

Definition next (c : cursor) : bool * cursor :=
  let c' := set_currentRow (currentRow c + 1) c in
  (bool_decide (currentRow c' < len (data c')), c').

Definition previous (c : cursor) : bool * cursor :=
  if bool_decide (currentRow c ≤ 0) then (false, c)
  else (true, set_currentRow (currentRow c - 1) c).

Definition first (c : cursor) : bool * cursor :=
  if bool_decide (len (data c) = 0) then (false, c)
  else (true, set_currentRow 0 c).

Definition last (c : cursor) : bool * cursor :=
  if bool_decide (len (data c) = 0) then (false, c)
  else (true, set_currentRow (len (data c) - 1) c).

Definition beforeFirst (c : cursor) : cursor := set_currentRow (-1) c.

Definition afterLast (c : cursor) : cursor :=
  set_currentRow (len (data c)) c.

Definition absolute (row : Z) (c : cursor) : bool * cursor :=
  let row := if bool_decide (row < 0) then len (data c) + row + 1 else row in
  if bool_decide (row < 1) || bool_decide (row > len (data c))
  then (false, set_currentRow (len (data c)) c)
  else (true, set_currentRow (row - 1) c).

Definition relative (rows : Z) (c : cursor) : bool * cursor :=
  absolute (currentRow c + 1 + rows) c.

(** *** Position checks *)

Definition isBeforeFirst (c : cursor) : bool :=
  bool_decide (len (data c) > 0) && bool_decide (currentRow c = -1).

Definition isAfterLast (c : cursor) : bool :=
  bool_decide (len (data c) > 0)
  && bool_decide (currentRow c >= len (data c)).

Definition isFirst (c : cursor) : bool :=
  bool_decide (len (data c) > 0) && bool_decide (currentRow c = 0).

Definition isLast (c : cursor) : bool :=
  bool_decide (len (data c) > 0)
  && bool_decide (currentRow c = len (data c) - 1).

Definition getRow (c : cursor) : Z :=
  if bool_decide (currentRow c < 0)
     || bool_decide (currentRow c >= len (data c))
  then 0
  else currentRow c + 1.

(** *** Methods that can throw

    [M A] is a method body returning an [A]: it runs on the cursor and
    yields either a value or an exception, together with the cursor as
    the call leaves it (a [throw] does not roll anything back). *)

Inductive outcome (A : Type) : Type :=
  | Return (a : A)
  | Throw (e : exn).
Arguments Return {A} a.
Arguments Throw {A} e.

Definition M (A : Type) : Type := cursor → outcome A * cursor.

Definition ret {A} (a : A) : M A := λ c, (Return a, c).
Definition throw {A} (e : exn) : M A := λ c, (Throw e, c).
Definition bind {A B} (m : M A) (k : A → M B) : M B :=
  λ c, match m c with
       | (Return a, c') => k a c'
       | (Throw e, c') => (Throw e, c')
       end.
Definition this : M cursor := λ c, (Return c, c).
Definition assign_wasNull (b : bool) : M unit :=
  λ c, (Return tt, set_wasNull b c).

Notation "x <- m ;; k" := (bind m (λ x, k))
  (at level 100, m at next level, right associativity).
Notation "m ;;; k" := (bind m (λ _, k))
  (at level 100, right associativity).

(** [string | number | boolean | null], and [undefined], which
    [getObject] lets through for a cell missing from a short row; [N] is
    the type of the numbers. *)
Inductive jsvalue (N : Type) : Type :=
  | VUndefined
  | VNull
  | VString (s : string)
  | VNumber (n : N)
  | VBoolean (b : bool).
Arguments VUndefined {N}.
Arguments VNull {N}.
Arguments VString {N} s.
Arguments VNumber {N} n.
Arguments VBoolean {N} b.

(** A plain object created by [{}] and filled by assignments: its own
    properties, in the order of their creation, and whether it still
    inherits from [Object.prototype]. *)
Record object (N : Type) : Type := {
  own : list (string * jsvalue N);
  inherits : bool;
}.
Arguments own {N} o.
Arguments inherits {N} o.

Section Accessors.
Context `{Host}.

(** [parseInt(value, 10)] and [parseFloat(value)] on a [value] that is
    not [null]: the built-ins convert their argument to a string
    first, and [undefined] converts to ["undefined"]. *)
Definition text_of (v : raw) : string :=
  match v with
  | RText s => s
  | RUndefined => "undefined"
  | RNull => "null"
  end.

(** [value.toLowerCase() === "true"] on a [value] that is not [null]:
    [undefined] has no properties. *)
Definition lower_is_true (v : raw) : M bool :=
  match v with
  | RText s => ret (bool_decide (toLowerCase s = "true"))
  | RUndefined | RNull => throw TypeError
  end.

Definition findColumn (columnLabel : string) : M Z :=
  self <- this ;;
  let idx :=
    findIndex
      (λ s, bool_decide (toLowerCase (name s) = toLowerCase columnLabel))
      (schema self) in
  if bool_decide (idx = -1) then throw (ColumnNotFound columnLabel)
  else ret (idx + 1).

Definition resolveColumn (column : colref) : M Z :=
  match column with
  | ByName label => findColumn label
  | ByIndex i => ret i
  end.

Definition getValue (columnIndex : Z) : M raw :=
  self <- this ;;
  if bool_decide (currentRow self < 0)
     || bool_decide (currentRow self >= len (data self))
  then throw NoCurrentRow
  else if bool_decide (columnIndex < 1)
          || bool_decide (columnIndex > len (schema self))
  then throw (InvalidColumnIndex columnIndex)
  else match index (data self) (currentRow self) with
       | None => throw TypeError
       | Some row =>
           ret (match index row (columnIndex - 1) with
                | Some c => raw_of_cell c
                | None => RUndefined
                end)
       end.

Definition getString (column : colref) : M raw :=
  i <- resolveColumn column ;;
  value <- getValue i ;;
  assign_wasNull (is_null value) ;;;
  ret value.

Definition getInt (column : colref) : M number :=
  i <- resolveColumn column ;;
  value <- getValue i ;;
  assign_wasNull (is_null value) ;;;
  ret (if is_null value then zero else parseInt10 (text_of value)).

Definition getFloat (column : colref) : M number :=
  i <- resolveColumn column ;;
  value <- getValue i ;;
  assign_wasNull (is_null value) ;;;
  ret (if is_null value then zero else parseFloat (text_of value)).

Definition getDouble (column : colref) : M number := getFloat column.

Definition getBoolean (column : colref) : M bool :=
  i <- resolveColumn column ;;
  value <- getValue i ;;
  assign_wasNull (is_null value) ;;;
  if negb (is_null value) then lower_is_true value else ret false.

Definition value_of_raw (v : raw) : jsvalue number :=
  match v with
  | RUndefined => VUndefined
  | RNull => VNull
  | RText s => VString s
  end.

Definition getObject (column : colref) : M (jsvalue number) :=
  columnIndex <- resolveColumn column ;;
  value <- getValue columnIndex ;;
  assign_wasNull (is_null value) ;;;
  if is_null value then ret VNull
  else
    self <- this ;;
    match index (schema self) (columnIndex - 1) with
    | None => throw TypeError
    | Some f =>
        let dataType := data_type f in
        if bool_decide (dataType = "Int32")
           || bool_decide (dataType = "Int64")
        then ret (VNumber (parseInt10 (text_of value)))
        else if bool_decide (dataType = "Float32")
                || bool_decide (dataType = "Float64")
        then ret (VNumber (parseFloat (text_of value)))
        else if bool_decide (dataType = "Boolean")
        then b <- lower_is_true value ;; ret (VBoolean b)
        else ret (value_of_raw value)
    end.

Definition wasNull (c : cursor) : bool := _wasNull c.

(** *** Metadata *)

Definition getColumnCount (c : cursor) : Z := len (schema c).

(** *** toArray *)

(** [o[key]] for an own property: [None] when there is none. *)
Fixpoint get_own (key : string) (ps : list (string * jsvalue number))
  : option (jsvalue number) :=
  match ps with
  | [] => None
  | (k, v) :: ps' => if bool_decide (k = key) then Some v else get_own key ps'
  end.

(** Writing an own property: an existing one keeps its place, a new one
    goes last. *)
Fixpoint set_own (key : string) (v : jsvalue number)
    (ps : list (string * jsvalue number)) : list (string * jsvalue number) :=
  match ps with
  | [] => [(key, v)]
  | (k, w) :: ps' =>
      if bool_decide (k = key) then (k, v) :: ps'
      else (k, w) :: set_own key v ps'
  end.

Definition get (o : object number) (key : string)
  : option (jsvalue number) :=
  get_own key (own o).

(** [{}] *)
Definition empty_object : object number := {| own := []; inherits := true |}.

(** [row[key] = v] for a primitive [v]. Every key creates or updates
    an own property, except ["__proto__"] while the object inherits
    the accessor of that name from [Object.prototype]: its setter
    replaces the prototype when [v] is [null] and ignores any other
    primitive. *)
Definition assign (key : string) (v : jsvalue number) (o : object number)
  : object number :=
  if bool_decide (key = "__proto__") && inherits o
  then match v with
       | VNull => {| own := own o; inherits := false |}
       | _ => o
       end
  else {| own := set_own key v (own o); inherits := inherits o |}.

(** [for (let i = 1; i <= this.schema.length; i++)
       row[this.schema[i - 1].name] = this.getObject(i);]
    with [n] the number of iterations left, [this.schema.length - i + 1]
    (the schema does not change). *)
Fixpoint toArray_for (n : nat) (i : Z) (row : object number)
  : M (object number) :=
  match n with
  | O => ret row
  | S n' =>
      self <- this ;;
      match index (schema self) (i - 1) with
      | None => throw TypeError
      | Some f =>
          v <- getObject (ByIndex i) ;;
          toArray_for n' (i + 1) (assign (name f) v row)
      end
  end.

(** [while (this.next()) { ...; rows.push(row); }] run for at most
    [fuel] tests of the condition; [None] when they do not suffice. *)
Fixpoint toArray_while (fuel : nat) (rows : list (object number)) (c : cursor)
  : option (outcome (list (object number)) * cursor) :=
  match fuel with
  | O => None
  | S fuel' =>
      let '(more, c1) := next c in
      if more then
        match toArray_for (length (schema c1)) 1 empty_object c1 with
        | (Return row, c2) => toArray_while fuel' (rows ++ [row]) c2
        | (Throw e, c2) => Some (Throw e, c2)
        end
      else Some (Return rows, c1)
  end.

Definition toArray_fuel (fuel : nat) (c : cursor)
  : option (outcome (list (object number)) * cursor) :=
  let saved := currentRow c in
  match toArray_while fuel [] (beforeFirst c) with
  | Some (Return rows, c') => Some (Return rows, set_currentRow saved c')
  | Some (Throw e, c') => Some (Throw e, c')
  | None => None
  end.

(** One test of the loop condition per row and a last one that fails. *)
Definition toArray (c : cursor)
  : option (outcome (list (object number)) * cursor) :=
  toArray_fuel (S (length (data c))) c.

(** *** Metadata by column *)

(** [this.schema[columnIndex - 1].name]: reading [name] off [undefined]
    throws. *)
Definition getColumnName (columnIndex : Z) : M string :=
  self <- this ;;
  match index (schema self) (columnIndex - 1) with
  | Some f => ret (name f)
  | None => throw TypeError
  end.

Definition getColumnType (columnIndex : Z) : M string :=
  self <- this ;;
  match index (schema self) (columnIndex - 1) with
  | Some f => ret (data_type f)
  | None => throw TypeError
  end.

(** [[...this.schema]] *)
Definition getSchema (c : cursor) : list SchemaField := schema c.

(** *** The iteration protocol

    [[Symbol.iterator]()] rewinds the cursor and returns an iterator that
    keeps no position of its own: each [next()] of the iterator is a
    [next()] of the cursor, followed by the column loop of [toArray]. *)
Definition iterator (c : cursor) : cursor := beforeFirst c.

(** The iterator's [next()]: [Some row] for [{ value: row, done: false }],
    [None] for [{ done: true }]. *)
Definition iterator_next : M (option (object number)) :=
  λ c,
    let '(more, c1) := next c in
    if more then
      (row <- toArray_for (length (schema c1)) 1 empty_object ;;
       ret (Some row)) c1
    else (Return None, c1).

(** [[...resultSet]]: the iterator is asked for values until it is done,
    at most [fuel] times. *)
Fixpoint spread_from (fuel : nat) (rows : list (object number)) (c : cursor)
  : option (outcome (list (object number)) * cursor) :=
  match fuel with
  | O => None
  | S fuel' =>
      match iterator_next c with
      | (Return (Some row), c') => spread_from fuel' (rows ++ [row]) c'
      | (Return None, c') => Some (Return rows, c')
      | (Throw e, c') => Some (Throw e, c')
      end
  end.

Definition spread (c : cursor)
  : option (outcome (list (object number)) * cursor) :=
  spread_from (S (length (data c))) [] (iterator c).

End Accessors.

End DatalatheResultSet.

(** ** client.ts: the chunk pump of parseJsonStream

    [parseJsonStream] hands every chunk the body reader delivers to
    [parser.write], in arrival order, and calls [parser.end()] when the
    reader is done. The parser is the [JSONParser] of the package
    [@streamparser/json]; it is not code of the client and is a parameter
    here. *)

Module JsonStream.

Section Pump.
Context {parser : Type}.
(* [parser.write(value)] *)
Variable write : parser → list Byte.byte → parser.

(** The [while (true)] loop of [pump] over the chunks that
    [reader.read()] delivers before it reports [done]. *)
Definition pump (chunks : list (list Byte.byte)) (p : parser) : parser :=
  foldl write p chunks.

End Pump.

End JsonStream.

(** ** client.ts, commands/create-chip.ts, errors.ts: staging chips

    The network is a parameter: [fetchFn] acts on a world [W] and either
    rejects (with an [E]: network failure, abort on timeout) or resolves
    to a response whose body was read, or failed to be read, as text and
    as JSON (a [J]). [JSON.stringify] is a parameter too. An [await]
    runs its promise to the end before the method goes on, so an async
    method is a function from the world to a settled result and the world
    it leaves. *)

Module DatalatheClient.

Inductive SourceType : Type := MYSQL | FILE | S3 | LOCAL | CACHE.

Record Partition := {
  partition_by : string;
  partition_values : option (list string);
  partition_query : option string;
  combine_partitions : option bool;
}.

Record SourceRequest := {
  database_name : string;
  table_name : option string;
  query : string;
  file_path : option string;
  s3_path : option string;
  partition : option Partition;
}.

Record StageDataRequest := {
  source_type : SourceType;
  source_request : SourceRequest;
  chip_id : option string;
}.

Module StageDataResponse.
Record t := {
  chip_id : string;
  error : option string;   (* [string | null] *)
}.
End StageDataResponse.

(** errors.ts, and what a rejected promise of the platform carries. *)
Inductive failure (E : Type) : Type :=
  | DatalatheApiError (message : string) (statusCode : Z) (responseBody : string)
  | DatalatheStageError (message : string)
  | Rejection (e : E).
Arguments DatalatheApiError {E} message statusCode responseBody.
Arguments DatalatheStageError {E} message.
Arguments Rejection {E} e.

(** A settled promise. *)
Inductive settled (E A : Type) : Type :=
  | Resolved (a : A)
  | Rejected (f : failure E).
Arguments Resolved {E A} a.
Arguments Rejected {E A} f.

(** [DatalatheCommand<TRequest, TResponse>] of commands/command.ts *)
Record DatalatheCommand (J TRequest TResponse : Type) := {
  endpoint : string;
  request : TRequest;
  parseResponse : J → TResponse;
}.
Arguments endpoint {J TRequest TResponse} d.
Arguments request {J TRequest TResponse} d.
Arguments parseResponse {J TRequest TResponse} d j.

(** [Record<string, string>]: the properties in the order of their
    creation. *)
Definition headers_t : Type := list (string * string).

(** [o[key] = value] on such an object. *)
Fixpoint set_header (key value : string) (o : headers_t) : headers_t :=
  match o with
  | [] => [(key, value)]
  | (k, v) :: o' =>
      if bool_decide (k = key) then (k, value) :: o'
      else (k, v) :: set_header key value o'
  end.


(** [{ ...a, ...b }]: the properties of [b] are written over [a]. *)
Definition spread_headers (a b : headers_t) : headers_t :=
  foldl (λ o kv, set_header kv.1 kv.2 o) a b.

(** The second argument of [fetch] (the abort signal apart). *)
Record RequestInit := {
  method : string;
  headers : headers_t;
  body : option string;
}.

(** What [fetch] resolves to, with the outcome of reading its body. *)
Record Response (E J : Type) := {
  ok : bool;
  status : Z;
  text : E + string;
  json : E + J;
}.
Arguments ok {E J} r.
Arguments status {E J} r.
Arguments text {E J} r.
Arguments json {E J} r.

(** [DatalatheClientOptions], the [fetch] field apart. *)
Record DatalatheClientOptions := {
  options_headers : option headers_t;
  options_timeout : option Z;
}.

Record client := {
  baseUrl : string;
  defaultHeaders : headers_t;
  timeout : Z;
}.

(** [s.replace(re, empty)] for the regular expression [re] of one or more
    slashes followed by the end of the string, and [empty] the empty
    string: the expression matches the run of slashes that ends the
    string, if there is one. *)
Fixpoint strip_trailing_slashes (s : string) : string :=
  match s with
  | EmptyString => EmptyString
  | String a s' =>
      let r := strip_trailing_slashes s' in
      if bool_decide (String a EmptyString = "/")
         && bool_decide (r = EmptyString)
      then EmptyString
      else String a r
  end.

(** [new DatalatheClient(baseUrl, options)] *)
Definition new (baseUrl : string) (options : option DatalatheClientOptions)
  : client :=
  {| baseUrl := strip_trailing_slashes baseUrl;
     defaultHeaders := default [] (options ≫= options_headers);
     timeout := default 30000 (options ≫= options_timeout) |}.

(** [new CreateChipCommand(sourceType, source, chipId)]; [cast] is
    [json as StageDataResponse]. *)
Definition CreateChipCommand {J} (cast : J → StageDataResponse.t)
    (sourceType : SourceType) (source : SourceRequest)
    (chipId : option string)
  : DatalatheCommand J StageDataRequest StageDataResponse.t :=
  {| endpoint := "/lathe/stage/data";
     request := {| source_type := sourceType; source_request := source;
                   chip_id := chipId |};
     parseResponse := cast |}.

(** [if (x)] on a [string | null]. *)
Definition truthy (x : option string) : bool :=
  match x with
  | None => false
  | Some s => negb (bool_decide (s = EmptyString))
  end.

(** [`${x}`] on a [string | null]. *)
Definition template (x : option string) : string :=
  match x with
  | None => "null"
  | Some s => s
  end.

Section Transport.
Context {W E J : Type}.
Variable fetchFn : string → RequestInit → W → (E + Response E J) * W.

(** An async method returning an [A]. *)
Definition async (A : Type) : Type := W → settled E A * W.

Definition sendCommand {TReq TRes} (stringify : TReq → string)
    (self : client) (command : DatalatheCommand J TReq TRes) : async TRes :=
  λ w,
    let url := baseUrl self +:+ endpoint command in
    match
      fetchFn url
        {| method := "POST";
           headers :=
             spread_headers [("Content-Type", "application/json")]
               (defaultHeaders self);
           body := Some (stringify (request command)) |} w
    with
    | (inl e, w') => (Rejected (Rejection e), w')
    | (inr response, w') =>
        if negb (ok response) then
          match text response with
          | inl e => (Rejected (Rejection e), w')
          | inr body =>
              (Rejected
                 (DatalatheApiError
                    ("Failed to execute command: "
                     +:+ pretty (status response) +:+ " " +:+ body)
                    (status response) body), w')
          end
        else
          match json response with
          | inl e => (Rejected (Rejection e), w')
          | inr j => (Resolved (parseResponse command j), w')
          end
    end.

Variable stringify : StageDataRequest → string.
Variable cast : J → StageDataResponse.t.

(** The [for (const source of sources)] loop of [createChips]. *)
Fixpoint createChips_loop (self : client) (sources : list SourceRequest)
    (chipId : option string) (sourceType : SourceType)
    (chipIds : list string) : async (list string) :=
  λ w,
    match sources with
    | [] => (Resolved chipIds, w)
    | source :: sources' =>
        let command := CreateChipCommand cast sourceType source chipId in
        match sendCommand stringify self command w with
        | (Rejected f, w') => (Rejected f, w')
        | (Resolved response, w') =>
            if truthy (StageDataResponse.error response) then
              (Rejected
                 (DatalatheStageError
                    ("Failed to stage data: "
                     +:+ template (StageDataResponse.error response))), w')
            else
              createChips_loop self sources' chipId sourceType
                (chipIds ++ [StageDataResponse.chip_id response]) w'
        end
    end.

(** [createChips(sources, chipId, sourceType = SourceType.MYSQL)] *)
Definition createChips (self : client) (sources : list SourceRequest)
    (chipId : option string) (sourceType : option SourceType)
  : async (list string) :=
  createChips_loop self sources chipId (default MYSQL sourceType) [].



End Transport.

End DatalatheClient.

(** ** Vocabulary of the properties *)

Module Calls.

Import Types DatalatheResultSet.

(** A navigation call with its arguments. *)
Inductive nav : Type :=
  | Next
  | Previous
  | First
  | Last
  | BeforeFirst
  | AfterLast
  | Absolute (row : Z)
  | Relative (rows : Z).

(** The cursor after one navigation call (the boolean result dropped). *)
Definition step (k : nav) (c : cursor) : cursor :=
  match k with
  | Next => (next c).2
  | Previous => (previous c).2
  | First => (first c).2
  | Last => (last c).2
  | BeforeFirst => beforeFirst c
  | AfterLast => afterLast c
  | Absolute row => (absolute row c).2
  | Relative rows => (relative rows c).2
  end.

(** The cursor after a sequence of navigation calls, leftmost first. *)
Definition run (ks : list nav) (c : cursor) : cursor :=
  foldl (λ c k, step k c) c ks.

(** No [next()] of the sequence is issued at or beyond the end of the
    grid. *)
Fixpoint next_within (ks : list nav) (c : cursor) : bool :=
  match ks with
  | [] => true
  | k :: ks' =>
      match k with
      | Next => bool_decide (currentRow c < rowCount c)
      | _ => true
      end && next_within ks' (step k c)
  end.

(** [n] consecutive [next()] calls: their results, first call first, and
    the cursor they leave. *)
Fixpoint nexts (n : nat) (c : cursor) : list bool * cursor :=
  match n with
  | O => ([], c)
  | S n' =>
      let '(b, c1) := next c in
      let '(bs, c2) := nexts n' c1 in
      (b :: bs, c2)
  end.

(** The position indexes a row of the grid. *)
Definition on_row (c : cursor) : Prop :=
  0 ≤ currentRow c < rowCount c.

Section Accessor.
Context `{Host}.

(** The scalar accessors. *)
Inductive accessor : Type :=
  | GetString
  | GetInt
  | GetFloat
  | GetDouble
  | GetBoolean
  | GetObject.

(** One accessor call, its result injected into [jsvalue]. *)
Definition call (a : accessor) (column : colref) : M (jsvalue number) :=
  match a with
  | GetString => v <- getString column ;; ret (value_of_raw v)
  | GetInt => n <- getInt column ;; ret (VNumber n)
  | GetFloat => n <- getFloat column ;; ret (VNumber n)
  | GetDouble => n <- getDouble column ;; ret (VNumber n)
  | GetBoolean => b <- getBoolean column ;; ret (VBoolean b)
  | GetObject => getObject column
  end.

(** Column [i] (1-based) is named [key], and no later column is. *)
Definition last_named (c : cursor) (key : string) (i : Z) : Prop :=
  (∃ f, index (schema c) (i - 1) = Some f ∧ name f = key)
  ∧ ∀ j f, i < j → index (schema c) (j - 1) = Some f → name f ≠ key.

(** The name of a column matches the label up to case. *)
Definition matches (label : string) (f : SchemaField) : Prop :=
  toLowerCase (name f) = toLowerCase label.

(** Every row has a cell for every column. *)
Definition full_rows (c : cursor) : Prop :=
  ∀ row, row ∈ data c → len (schema c) ≤ len row.

(** What [this.data[r][i - 1]] evaluates to for a row [r] of the
    grid. *)
Definition cell_raw (c : cursor) (r i : Z) : raw :=
  match index (data c) r with
  | Some row =>
      match index row (i - 1) with
      | Some x => raw_of_cell x
      | None => RUndefined
      end
  | None => RUndefined
  end.

(** The type coercion that [getObject] applies to a raw cell, as a
    function of the declared type of the column. *)
Definition coerce (dataType : string) (v : raw) : outcome (jsvalue number) :=
  match v with
  | RNull => Return VNull
  | RText s =>
      if bool_decide (dataType = "Int32")
         || bool_decide (dataType = "Int64")
      then Return (VNumber (parseInt10 s))
      else if bool_decide (dataType = "Float32")
              || bool_decide (dataType = "Float64")
      then Return (VNumber (parseFloat s))
      else if bool_decide (dataType = "Boolean")
      then Return (VBoolean (bool_decide (toLowerCase s = "true")))
      else Return (VString s)
  | RUndefined =>
      if bool_decide (dataType = "Int32")
         || bool_decide (dataType = "Int64")
      then Return (VNumber (parseInt10 "undefined"))
      else if bool_decide (dataType = "Float32")
              || bool_decide (dataType = "Float64")
      then Return (VNumber (parseFloat "undefined"))
      else if bool_decide (dataType = "Boolean")
      then Throw TypeError
      else Return VUndefined
  end.

(** The object [o] is the record of row [r]: each column name other
    than ["__proto__"] maps to the coerced cell of the last column of
    that name, and there is no key that is not a column name. *)
Definition record_cells (c : cursor) (r : Z) (o : object number) : Prop :=
  (∀ key j f,
     key ≠ "__proto__" →
     index (schema c) (j - 1) = Some f → name f = key →
     (∀ j' f', j < j' → index (schema c) (j' - 1) = Some f' →
               name f' ≠ key) →
     ∃ v, get o key = Some v
          ∧ coerce (data_type f) (cell_raw c r j) = Return v)
  ∧ ∀ key, (∀ f, f ∈ schema c → name f ≠ key) → get o key = None.

(** The flag that the row loop leaves after [k] rows: that of the
    last cell read, if any cell was read. *)
Definition flag_after (k : nat) (c : cursor) : bool :=
  if decide (k = 0%nat ∨ schema c = []) then _wasNull c
  else is_null (cell_raw c (len (data c) - 1) (len (schema c))).

(** The same in terms of [getObject] on the cursor moved to row [r]. *)
Definition record_of (c : cursor) (r : Z) (o : object number) : Prop :=
  (∀ key j, key ≠ "__proto__" → last_named c key j →
     ∃ v, get o key = Some v
          ∧ (getObject (ByIndex j) (set_currentRow r c)).1 = Return v)
  ∧ ∀ key, (∀ f, f ∈ schema c → name f ≠ key) → get o key = None.

(** The scalar accessor that matches a declared column type, as the
    [switch] of [getObject] sorts the types. *)
Definition typed_accessor (dataType : string) : accessor :=
  if bool_decide (dataType = "Int32") || bool_decide (dataType = "Int64")
  then GetInt
  else if bool_decide (dataType = "Float32")
          || bool_decide (dataType = "Float64")
  then GetFloat
  else if bool_decide (dataType = "Boolean") then GetBoolean
  else GetString.

(** Two cursors over the same grid and schema, at the same position. *)
Definition same_view (c1 c2 : cursor) : Prop :=
  data c1 = data c2 ∧ schema c1 = schema c2 ∧ currentRow c1 = currentRow c2.

(** Row [r] lacks the cell of a column declared Boolean. It is the one
    cell that [getObject] cannot coerce: a missing cell reads as
    [undefined], which [parseInt] and [parseFloat] accept and the default
    branch returns, whereas the Boolean branch calls [toLowerCase] on
    it. *)
Definition lacks_boolean (c : cursor) (r : Z) : Prop :=
  ∃ j f, index (schema c) (j - 1) = Some f
         ∧ data_type f = "Boolean"
         ∧ cell_raw c r j = RUndefined.

(** What a call returned or threw, the cursor apart. *)
Definition result_of {A} (r : option (outcome A * cursor))
  : option (outcome A) :=
  fst <$> r.

End Accessor.

(** [k] slashes. *)
Fixpoint slashes (k : nat) : string :=
  match k with
  | O => EmptyString
  | S k' => "/" +:+ slashes k'
  end.

End Calls.

(** ** A host for the examples

    Numbers are kept as the unevaluated parse of their text, and
    lower-casing acts on the ASCII letters. *)

Module Sample.

Import Types DatalatheResultSet.

Inductive num : Type :=
  | Zero
  | IntOf (s : string)
  | FloatOf (s : string).

Definition lower_ascii (a : Ascii.ascii) : Ascii.ascii :=
  let n := Ascii.N_of_ascii a in
  if ((65 <=? n) && (n <=? 90))%N then Ascii.ascii_of_N (n + 32) else a.

Fixpoint lower (s : string) : string :=
  match s with
  | EmptyString => EmptyString
  | String a s' => String (lower_ascii a) (lower s')
  end.

Definition host : Host :=
  {| number := num; zero := Zero; parseInt10 := IntOf;
     parseFloat := FloatOf; toLowerCase := lower |}.

Definition entry (s : list SchemaField) (rows : field (list (list cell)))
    (fallback : field (list (list cell))) : ReportResultEntry :=
  {| idx := "0"; result := rows; Types.data := fallback;
     error := Null; Types.schema := Has s |}.

(** The fixture of tests/result-set.test.ts *)
Definition people : ReportResultEntry :=
  entry
    [ {| name := "id"; data_type := "Int32" |};
      {| name := "name"; data_type := "Utf8" |};
      {| name := "age"; data_type := "Int32" |};
      {| name := "active"; data_type := "Boolean" |};
      {| name := "score"; data_type := "Float64" |} ]
    (Has [ [CText "1"; CText "John"; CText "30"; CText "true"; CText "95.5"];
           [CText "2"; CText "Jane"; CText "25"; CText "false"; CText "88.0"];
           [CText "3"; CNull; CText "35"; CText "true"; CNull] ])
    Absent.

(** testNullResultFallsBackToData *)
Definition null_result : ReportResultEntry :=
  entry [ {| name := "id"; data_type := "Int32" |} ]
    Null (Has [ [CText "42"] ]).

(** testEmptyResultSet *)
Definition empty : ReportResultEntry := entry [] (Has []) Absent.

Definition one_row : ReportResultEntry :=
  entry [ {| name := "id"; data_type := "Int32" |} ]
    (Has [ [CText "7"] ]) Absent.

(** Two columns of one name. *)
Definition twins : ReportResultEntry :=
  entry
    [ {| name := "a"; data_type := "Utf8" |};
      {| name := "a"; data_type := "Utf8" |} ]
    (Has [ [CText "x"; CText "y"] ]) Absent.

(** The cursors of the examples. *)
Definition fresh : cursor := new people.
Definition on_second : cursor := Calls.run [Calls.Next; Calls.Next] fresh.
Definition on_third : cursor :=
  Calls.run [Calls.Next; Calls.Next; Calls.Next] fresh.
Definition third_row : list cell :=
  [CText "3"; CNull; CText "35"; CText "true"; CNull].
Definition wander : list Calls.nav :=
  [Calls.Next; Calls.Last; Calls.Relative (-5); Calls.Previous;
   Calls.Absolute 2].

(** The rows and the cursor that [toArray] returns on them. *)
Definition rows_of (c : cursor) : list (object num) :=
  match toArray (H := host) c with
  | Some (Return rows, _) => rows
  | _ => []
  end.

Definition after_toArray (c : cursor) : cursor :=
  match toArray (H := host) c with
  | Some (_, c') => c'
  | None => c
  end.

Definition second_rows : list (object num) :=
  Eval vm_compute in rows_of on_second.
Definition second_after : cursor :=
  Eval vm_compute in after_toArray on_second.
Definition fresh_rows : list (object num) :=
  Eval vm_compute in rows_of fresh.
Definition fresh_after : cursor := Eval vm_compute in after_toArray fresh.
Definition twins_rows : list (object num) :=
  Eval vm_compute in rows_of (new twins).
Definition twins_after : cursor :=
  Eval vm_compute in after_toArray (new twins).

End Sample.

(** ** A transport for the examples

    It answers the calls from a list of responses, in order, rejects once
    the list is used up, and keeps a log of the calls. The decoded body is
    the typed response itself, and the request body is the query of the
    source. *)

Module Canned.

Import DatalatheClient.

Record world := {
  callIndex : nat;
  calls : list (string * RequestInit);
}.

Definition start : world := {| callIndex := 0; calls := [] |}.

Definition respond (status : Z) (text : string) (j : StageDataResponse.t)
  : Response string StageDataResponse.t :=
  {| ok := bool_decide (200 ≤ status ≤ 299); status := status;
     text := inr text; json := inr j |}.

Definition fetch (responses : list (Response string StageDataResponse.t))
    (url : string) (init : RequestInit) (w : world)
  : (string + Response string StageDataResponse.t) * world :=
  let w' := {| callIndex := S (callIndex w);
               calls := calls w ++ [(url, init)] |} in
  match responses !! callIndex w with
  | Some r => (inr r, w')
  | None => (inl "no response left", w')
  end.

Definition stringify (r : StageDataRequest) : string :=
  query (source_request r).

Definition source (q table : string) : SourceRequest :=
  {| database_name := "db1"; table_name := Some table; query := q;
     file_path := None; s3_path := None; partition := None |}.

Definition users : SourceRequest := source "SELECT * FROM users" "users".
Definition orders : SourceRequest := source "SELECT * FROM orders" "orders".

Definition staged (id : string) : Response string StageDataResponse.t :=
  respond 200 "ok"
    {| StageDataResponse.chip_id := id; StageDataResponse.error := None |}.

Definition refused (why : string) : Response string StageDataResponse.t :=
  respond 200 "ok"
    {| StageDataResponse.chip_id := EmptyString;
       StageDataResponse.error := Some why |}.

(** The client of the tests, with a trailing slash to strip. *)
Definition local : client := new "http://localhost:8080/" None.

(** A grid whose only row lacks the cell of its Boolean column. *)
Definition short_row : Types.ReportResultEntry :=
  Sample.entry
    [ {| Types.name := "id"; Types.data_type := "Int32" |};
      {| Types.name := "active"; Types.data_type := "Boolean" |} ]
    (Has [ [CText "1"] ]) Absent.

(** The cursor on that row, and what [toArray] leaves of it. *)
Definition short_cursor : DatalatheResultSet.cursor :=
  (DatalatheResultSet.next (DatalatheResultSet.new short_row)).2.
Definition short_after : DatalatheResultSet.cursor :=
  Eval vm_compute in Sample.after_toArray short_cursor.

(** The cursor that spreading the fixture leaves. *)
Definition spread_after : DatalatheResultSet.cursor :=
  Eval vm_compute in
    match DatalatheResultSet.spread (H := Sample.host) Sample.on_second with
    | Some (_, c') => c'
    | None => Sample.on_second
    end.

(** testCreateChipsMultipleSources, and a run whose second source is
    refused. *)
Definition two_chips : list (Response string StageDataResponse.t) :=
  [staged "chip1"; staged "chip2"].
Definition second_refused : list (Response string StageDataResponse.t) :=
  [staged "chip1"; refused "Source not found"; staged "chip3"].

Definition stage (responses : list (Response string StageDataResponse.t))
    (sources : list SourceRequest) (w : world)
  : settled string (list string) * world :=
  createChips (fetch responses) stringify id local sources None None w.

Definition after_users : world :=
  Eval vm_compute in (stage two_chips [users] start).2.
Definition after_both : world :=
  Eval vm_compute in (stage two_chips [users; orders] start).2.




End Canned.

Import Types DatalatheResultSet Calls.

(** ** Navigation *)

Section Navigation.

Implicit Types (c : cursor) (k : nav) (ks : list nav).

Lemma len_nonneg {A} (l : list A) : 0 ≤ len l.
Proof. unfold len. lia. Qed.

Lemma index_lookup {A} (l : list A) (n : nat) :
  index l (Z.of_nat n) = l !! n.
Proof.
  unfold index. case_decide; [by rewrite Nat2Z.id | lia].
Qed.

Lemma index_Some_range {A} (l : list A) (i : Z) (x : A) :
  index l i = Some x → 0 ≤ i < len l.
Proof.
  unfold index, len. case_decide; [|done].
  intros Hx%lookup_lt_Some. lia.
Qed.

Lemma index_in_range {A} (l : list A) (i : Z) :
  0 ≤ i < len l → ∃ x, index l i = Some x ∧ l !! Z.to_nat i = Some x.
Proof.
  unfold index, len. intros Hi. case_decide; [|lia].
  destruct (lookup_lt_is_Some_2 l (Z.to_nat i)) as [x Hx]; [lia|].
  eauto.
Qed.

(** Navigation touches the position only. *)
Lemma step_frame k c :
  data (step k c) = data c
  ∧ schema (step k c) = schema c
  ∧ _wasNull (step k c) = _wasNull c.
Proof.
  destruct k; cbn; unfold previous, first, last, absolute, relative, absolute;
    repeat case_match; done.
Qed.

Lemma step_rowCount k c : rowCount (step k c) = rowCount c.
Proof. unfold rowCount. by rewrite (proj1 (step_frame k c)). Qed.

Lemma run_rowCount ks c : rowCount (run ks c) = rowCount c.
Proof.
  revert c. induction ks as [|k ks IH]; intros c; [done|].
  cbn. fold (run ks (step k c)). by rewrite IH, step_rowCount.
Qed.

(** One call keeps the position at or above [-1]. *)
Lemma step_lower k c : -1 ≤ currentRow c → -1 ≤ currentRow (step k c).
Proof.
  intros Hc. pose proof (len_nonneg (data c)).
  destruct k; cbn; unfold previous, first, last, absolute, relative, absolute;
    repeat case_match; cbn; try lia.
  all: repeat match goal with
       | H : bool_decide _ = true |- _ => apply bool_decide_eq_true in H
       | H : bool_decide _ = false |- _ => apply bool_decide_eq_false in H
       | H : _ || _ = false |- _ => apply orb_false_iff in H as [??]
       end; lia.
Qed.

(** One call other than a [next()] at or beyond the end keeps the
    position at or below [rowCount]. *)
Lemma step_upper k c :
  currentRow c ≤ rowCount c →
  next_within [k] c = true →
  currentRow (step k c) ≤ rowCount c.
Proof.
  unfold rowCount. intros Hc Hk. pose proof (len_nonneg (data c)).
  destruct k; cbn in *;
    unfold previous, first, last, absolute, relative, absolute, rowCount in *;
    repeat case_match; cbn; try lia.
  all: repeat match goal with
       | H : _ && true = true |- _ => rewrite andb_true_r in H
       | H : bool_decide _ = true |- _ => apply bool_decide_eq_true in H
       | H : bool_decide _ = false |- _ => apply bool_decide_eq_false in H
       | H : _ || _ = false |- _ => apply orb_false_iff in H as [??]
       end; lia.
Qed.

Lemma run_lower ks c : -1 ≤ currentRow c → -1 ≤ currentRow (run ks c).
Proof.
  revert c. induction ks as [|k ks IH]; intros c Hc; [done|].
  cbn. fold (run ks (step k c)). by apply IH, step_lower.
Qed.

Lemma run_upper ks c :
  currentRow c ≤ rowCount c →
  next_within ks c = true →
  currentRow (run ks c) ≤ rowCount c.
Proof.
  revert c. induction ks as [|k ks IH]; intros c Hc Hks; [done|].
  cbn in Hks. apply andb_true_iff in Hks as [Hk Hks].
  cbn. fold (run ks (step k c)).
  rewrite <- (step_rowCount k c). apply IH; [|done].
  rewrite step_rowCount. apply step_upper; [done|].
  cbn. by rewrite Hk.
Qed.

End Navigation.

Section Navigation_claims.

Implicit Types (c : cursor) (e : ReportResultEntry).

(** C1, as amended. For every cursor built from a response entry and
    every sequence of navigation calls (next, previous, first, last,
    beforeFirst, afterLast, absolute, relative) the position stays an
    integer at or above [-1]; it stays at or below [rowCount] as well
    provided no [next()] of the sequence is issued when the position is
    already at or beyond [rowCount]. *)
Theorem position_range e (ks : list nav) :
  -1 ≤ currentRow (run ks (new e))
  ∧ (next_within ks (new e) = true →
     currentRow (run ks (new e)) ≤ rowCount (new e)).
Proof.
  split.
  - by apply run_lower.
  - intros Hks. apply run_upper; [|done].
    unfold rowCount. pose proof (len_nonneg (data (new e))). cbn in *. lia.
Qed.

Lemma set_currentRow_set (r r' : Z) c :
  set_currentRow r (set_currentRow r' c) = set_currentRow r c.
Proof. done. Qed.

Lemma set_currentRow_same (r : Z) c :
  currentRow c = r → set_currentRow r c = c.
Proof. intros <-. by destruct c. Qed.

Lemma set_currentRow_eq (r r' : Z) c :
  r = r' → set_currentRow r c = set_currentRow r' c.
Proof. by intros ->. Qed.

Lemma next_unfold c :
  next c = (bool_decide (currentRow c + 1 < rowCount c),
            set_currentRow (currentRow c + 1) c).
Proof. done. Qed.

Lemma nexts_from_before_first (n : nat) c :
  currentRow c + Z.of_nat n < rowCount c →
  nexts n c = (replicate n true, set_currentRow (currentRow c + Z.of_nat n) c).
Proof.
  revert c. induction n as [|n IH]; intros c Hn.
  - cbn. by rewrite set_currentRow_same by lia.
  - cbn [nexts]. rewrite next_unfold, bool_decide_eq_true_2 by lia.
    rewrite IH by (unfold rowCount in *; cbn; lia).
    cbn [replicate currentRow set_currentRow]. rewrite set_currentRow_set.
    f_equal. apply set_currentRow_eq. lia.
Qed.

(** C2, as amended. For every cursor over a grid of R rows and every
    starting position p (at or above [-1]), [next()] advances the
    position by one and returns true iff the new position indexes a valid
    row; when it returns false the position it leaves, p + 1, is R
    (after-last) if the call started below R and lies beyond R if the
    call started at or beyond R. In particular, from before-first exactly
    R consecutive [next()] calls return true, the (R+1)th returns false,
    and [getRow()] after k successful [next()] calls equals k. *)
Theorem next_spec c :
  (-1 ≤ currentRow c →
     currentRow (next c).2 = currentRow c + 1
     ∧ rowCount (next c).2 = rowCount c
     ∧ ((next c).1 = true ↔ on_row (next c).2)
     ∧ ((next c).1 = false → currentRow c < rowCount c →
          currentRow (next c).2 = rowCount c)
     ∧ ((next c).1 = false → rowCount c ≤ currentRow c →
          rowCount c < currentRow (next c).2))
  ∧ (currentRow c = -1 →
     (nexts (length (data c)) c).1 = replicate (length (data c)) true
     ∧ (next (nexts (length (data c)) c).2).1 = false
     ∧ ∀ k : nat, (k ≤ length (data c))%nat →
         (nexts k c).1 = replicate k true
         ∧ getRow (nexts k c).2 = Z.of_nat k).
Proof.
  split.
  - intros Hc. rewrite next_unfold. unfold on_row, rowCount.
    cbn [fst snd currentRow data set_currentRow].
    rewrite bool_decide_eq_true, bool_decide_eq_false.
    split; [done|]. split; [done|]. split; [lia|]. split; lia.
  - intros Hc.
    assert (Hk : ∀ k : nat, (k ≤ length (data c))%nat →
              nexts k c = (replicate k true,
                           set_currentRow (Z.of_nat k - 1) c)).
    { intros [|k] Hk.
      - cbn. by rewrite set_currentRow_same by lia.
      - rewrite <- (Nat.add_1_r k), Nat.add_comm. cbn [Nat.add nexts].
        rewrite next_unfold, bool_decide_eq_true_2
          by (unfold rowCount, len; lia).
        rewrite nexts_from_before_first
          by (unfold rowCount, len; cbn; lia).
        cbn [replicate currentRow set_currentRow]. rewrite set_currentRow_set.
    f_equal. apply set_currentRow_eq. lia. }
    split; [by rewrite Hk|]. split.
    + rewrite Hk by done. rewrite next_unfold. cbn.
      apply bool_decide_eq_false. unfold rowCount, len. cbn. lia.
    + intros k Hle. rewrite Hk by done. split; [done|].
      unfold getRow. cbn. destruct k as [|k].
      * by rewrite bool_decide_eq_true_2 by lia.
      * rewrite bool_decide_eq_false_2, bool_decide_eq_false_2
          by (unfold len; lia). cbn. lia.
Qed.

(** C7, as amended. For every cursor over a non-empty grid and every
    starting position, [absolute(-1)] is equivalent to [last()]: the two
    calls return the same boolean and leave the same cursor. Over an
    empty grid both return false, but [last()] does not move the cursor
    while [absolute(-1)] sets the position to [rowCount], which is 0. *)
Theorem absolute_minus_one c :
  (rowCount c ≠ 0 → absolute (-1) c = last c)
  ∧ (rowCount c = 0 →
     (absolute (-1) c).1 = false ∧ (last c).1 = false
     ∧ currentRow (absolute (-1) c).2 = 0 ∧ (last c).2 = c).
Proof.
  unfold rowCount, absolute, last. pose proof (len_nonneg (data c)).
  split; intros HR.
  - rewrite (bool_decide_eq_true_2 (-1 < 0)) by lia.
    rewrite (bool_decide_eq_false_2 (len (data c) = 0)) by done.
    rewrite !bool_decide_eq_false_2 by lia. cbn.
    do 2 f_equal. lia.
  - rewrite HR. cbn. by rewrite ?HR.
Qed.

(** C3, as amended. For every response entry, the cursor's grid is taken
    from the primary field ([result]) whenever that field holds a list,
    including an explicitly empty list, which is honoured literally; the
    fallback field ([data]) is used when the primary field is absent or
    null, and the grid is empty when the fallback is absent or null
    too. *)
Theorem grid_resolution e :
  (∀ g, result e = Has g → data (new e) = g)
  ∧ (result e = Has [] → data (new e) = [])
  ∧ (result e = Absent ∨ result e = Null →
     data (new e) = match Types.data e with Has g => g | _ => [] end).
Proof.
  unfold new; cbn. repeat split.
  - by intros g ->.
  - by intros ->.
  - by intros [-> | ->]; cbn; destruct (Types.data e).
Qed.

End Navigation_claims.

(** ** Column lookup and scalar accessors *)

Section Monad_laws.

Lemma bind_return {A B} (m : M A) (k : A → M B) c a c' :
  m c = (Return a, c') → bind m k c = k a c'.
Proof. unfold bind. by intros ->. Qed.

Lemma bind_throw {A B} (m : M A) (k : A → M B) c e c' :
  m c = (Throw e, c') → bind m k c = (Throw e, c').
Proof. unfold bind. by intros ->. Qed.

Lemma findIndex_from_none {A} (p : A → bool) l (i : Z) :
  0 ≤ i →
  findIndex_from p l i = -1 ↔ ∀ x, x ∈ l → p x = false.
Proof.
  revert i. induction l as [|x l IH]; intros i Hi; cbn.
  - split; [|done]. intros _ x Hx. by apply elem_of_nil in Hx.
  - destruct (p x) eqn:Hpx.
    + split; [lia|]. intros Hall.
      specialize (Hall x (list_elem_of_here _ _)). congruence.
    + rewrite IH by lia. split.
      * intros Hall y [-> | Hy]%elem_of_cons; auto.
      * intros Hall y Hy. apply Hall. by apply list_elem_of_further.
Qed.

Lemma findIndex_from_range {A} (p : A → bool) l (i : Z) :
  findIndex_from p l i = -1 ∨ i ≤ findIndex_from p l i.
Proof.
  revert i. induction l as [|x l IH]; intros i; cbn; [by left|].
  destruct (p x); [right; lia|]. destruct (IH (i + 1)); [by left|right; lia].
Qed.

Lemma findIndex_from_first {A} (p : A → bool) l (i : Z) (n : nat) :
  0 ≤ i →
  findIndex_from p l i = i + Z.of_nat n ↔
  (∃ x, l !! n = Some x ∧ p x = true)
  ∧ ∀ (m : nat) y, (m < n)%nat → l !! m = Some y → p y = false.
Proof.
  revert i n. induction l as [|x l IH]; intros i n Hi; cbn.
  - split; [lia|]. by intros [(y & Hy & _) _].
  - destruct (p x) eqn:Hpx.
    + split.
      * intros Hn. assert (n = 0%nat) as -> by lia.
        split; [by exists x|]. lia.
      * intros [(y & Hy & Hpy) Hbefore]. destruct n as [|n]; [lia|].
        specialize (Hbefore 0%nat x). cbn in Hbefore.
        rewrite Hbefore in Hpx by (done || lia). done.
    + destruct n as [|n].
      * split.
        -- intros Hn. destruct (findIndex_from_range p l (i + 1)); lia.
        -- intros [(y & Hy & Hpy) _]. cbn in Hy. congruence.
      * replace (i + Z.of_nat (S n)) with ((i + 1) + Z.of_nat n) by lia.
        rewrite IH by lia. cbn. split.
        -- intros [Hex Hbefore]. split; [done|].
           intros [|m] y Hm Hy; cbn in Hy; [congruence|].
           apply (Hbefore m); [lia|done].
        -- intros [Hex Hbefore]. split; [done|].
           intros m y Hm Hy. apply (Hbefore (S m)); [lia|done].
Qed.

End Monad_laws.

Section Accessor_claims.
Context `{Host}.

Implicit Types (c : cursor) (column : colref) (a : accessor).

Lemma findColumn_unfold label c :
  findColumn label c =
    let idx :=
      findIndex
        (λ s, bool_decide (toLowerCase (name s) = toLowerCase label))
        (schema c) in
    if bool_decide (idx = -1) then (Throw (ColumnNotFound label), c)
    else (Return (idx + 1), c).
Proof.
  unfold findColumn, bind, this. cbn. by case_bool_decide.
Qed.

(** A column reference resolves to an index, or it is a name and the
    lookup throws; the cursor is not touched. *)
Lemma resolveColumn_cases column c :
  (∃ i, resolveColumn column c = (Return i, c))
  ∨ (∃ label, column = ByName label
       ∧ resolveColumn column c = (Throw (ColumnNotFound label), c)).
Proof.
  destruct column as [i|label]; unfold resolveColumn.
  - left. by exists i.
  - rewrite findColumn_unfold. cbn. case_bool_decide; eauto.
Qed.

Lemma getValue_off_row i c :
  ¬ on_row c → getValue i c = (Throw NoCurrentRow, c).
Proof.
  unfold on_row, rowCount, getValue, bind, this. cbn. intros Hc.
  destruct (decide (currentRow c < 0)).
  - by rewrite bool_decide_eq_true_2.
  - rewrite bool_decide_eq_false_2, bool_decide_eq_true_2 by lia. done.
Qed.

Lemma getValue_bad_index i c :
  on_row c → ¬ (1 ≤ i ≤ len (schema c)) →
  getValue i c = (Throw (InvalidColumnIndex i), c).
Proof.
  unfold on_row, rowCount, getValue, bind, this. cbn. intros Hc Hi.
  rewrite !(bool_decide_eq_false_2 (currentRow c < 0)),
    !(bool_decide_eq_false_2 (currentRow c >= _)) by lia. cbn.
  destruct (decide (i < 1)).
  - by rewrite bool_decide_eq_true_2.
  - rewrite bool_decide_eq_false_2, bool_decide_eq_true_2 by lia. done.
Qed.

Lemma getValue_cell i c row :
  index (data c) (currentRow c) = Some row →
  1 ≤ i ≤ len (schema c) →
  getValue i c =
    (Return (match index row (i - 1) with
             | Some x => raw_of_cell x
             | None => RUndefined
             end), c).
Proof.
  intros Hrow Hi. pose proof (index_Some_range _ _ _ Hrow).
  unfold getValue, bind, this. cbn.
  rewrite !(bool_decide_eq_false_2 (currentRow c < 0)),
    !(bool_decide_eq_false_2 (currentRow c >= _)) by lia. cbn.
  rewrite !(bool_decide_eq_false_2 (i < 1)),
    !(bool_decide_eq_false_2 (i > _)) by lia. cbn.
  by rewrite Hrow.
Qed.

(** C8. For every schema and every lookup name, [findColumn] returns the
    1-based index of the first column whose name matches
    case-insensitively (equal after [toLowerCase]), and when no column
    matches it throws the column-not-found error carrying the lookup
    key; either way the cursor is left as it was. *)
Theorem findColumn_spec c (label : string) :
  (∀ i, findColumn label c = (Return i, c) ↔
     (∃ f, index (schema c) (i - 1) = Some f ∧ matches label f)
     ∧ ∀ j g, j < i → index (schema c) (j - 1) = Some g →
              ¬ matches label g)
  ∧ (findColumn label c = (Throw (ColumnNotFound label), c) ↔
     ∀ f, f ∈ schema c → ¬ matches label f)
  ∧ (∀ r, findColumn label c = r → r.2 = c).
Proof.
  rewrite findColumn_unfold. cbn. unfold findIndex.
  set (p := λ s : SchemaField,
         bool_decide (toLowerCase (name s) = toLowerCase label)).
  assert (Hp : ∀ f, p f = true ↔ matches label f)
    by (intros f; apply bool_decide_eq_true).
  assert (Hnp : ∀ f, p f = false ↔ ¬ matches label f)
    by (intros f; apply bool_decide_eq_false).
  pose proof (findIndex_from_range p (schema c) 0) as Hrange.
  pose proof (findIndex_from_none p (schema c) 0 ltac:(lia)) as Hnone.
  split; [|split].
  - intros i. case_bool_decide as Hidx.
    + split; [done|]. intros [(f & Hf & Hm) _]. exfalso.
      pose proof (index_Some_range _ _ _ Hf).
      unfold index in Hf. case_decide; [|done].
      pose proof (proj1 Hnone Hidx f) as Hall. apply Hp in Hm.
      rewrite Hall in Hm; [done|]. by eapply list_elem_of_lookup_2.
    + destruct Hrange as [|Hge]; [done|].
      pose proof (findIndex_from_first p (schema c) 0
                    (Z.to_nat (i - 1)) ltac:(lia)) as Hfirst.
      split.
      * intros [= <-].
        rewrite Z.add_simpl_r, Z2Nat.id, Z.add_0_l in Hfirst by lia.
        destruct Hfirst as [[(f & Hf & Hpf) Hbefore] _]; [done|]. split.
        -- exists f. rewrite Z.add_simpl_r. unfold index.
           case_decide; [|lia]. split; [done|]. by apply Hp.
        -- intros j g Hj Hg. apply Hnp.
           pose proof (index_Some_range _ _ _ Hg).
           unfold index in Hg. case_decide; [|lia].
           apply (Hbefore (Z.to_nat (j - 1))); [lia|done].
      * intros [(f & Hf & Hm) Hbefore].
        pose proof (index_Some_range _ _ _ Hf).
        rewrite Z2Nat.id, Z.add_0_l in Hfirst by lia.
        do 2 f_equal. enough (findIndex_from p (schema c) 0 = i - 1) by lia.
        apply Hfirst. split.
        -- exists f. unfold index in Hf. case_decide; [|lia].
           split; [done|]. by apply Hp.
        -- intros m y Hm' Hy. apply Hnp.
           apply (Hbefore (Z.of_nat m + 1)); [lia|].
           by rewrite Z.add_simpl_r, index_lookup.
  - case_bool_decide as Hidx.
    + split; [|done]. intros _ f Hf. apply Hnp.
      by apply (proj1 Hnone Hidx).
    + split; [done|]. intros Hall. exfalso. apply Hidx, (proj2 Hnone).
      intros f Hf. by apply Hnp, Hall.
  - intros r <-. by case_bool_decide.
Qed.

(** The accessors on a cell that exists. *)
Lemma accessors_on_cell c column i row (x : cell) :
  resolveColumn column c = (Return i, c) →
  1 ≤ i ≤ len (schema c) →
  index (data c) (currentRow c) = Some row →
  index row (i - 1) = Some x →
  let v := raw_of_cell x in
  let c' := set_wasNull (is_null v) c in
  getString column c = (Return v, c')
  ∧ getInt column c
    = (Return (if is_null v then zero else parseInt10 (text_of v)), c')
  ∧ getFloat column c
    = (Return (if is_null v then zero else parseFloat (text_of v)), c')
  ∧ getBoolean column c
    = (Return (match x with
               | CNull => false
               | CText s => bool_decide (toLowerCase s = "true")
               end), c')
  ∧ (x = CNull → getObject column c = (Return VNull, c'))
  ∧ (∀ s, x = CText s → ∃ w, getObject column c = (Return w, c')).
Proof.
  intros Hcol Hi Hrow Hx v c'.
  pose proof (getValue_cell i c row Hrow Hi) as Hv. rewrite Hx in Hv.
  fold v in Hv.
  unfold getString, getInt, getFloat, getBoolean, getObject.
  rewrite !(bind_return _ _ _ _ _ Hcol), !(bind_return _ _ _ _ _ Hv).
  unfold bind, assign_wasNull, ret, this. fold c'.
  repeat split.
  - subst v. by destruct x.
  - intros ->. done.
  - intros s ->. cbn.
    destruct (index_in_range (schema c) (i - 1)) as (f & -> & _); [lia|].
    unfold lower_is_true, ret. repeat case_match; eauto.
Qed.

(** C4. For every cursor positioned on a valid row and every column
    whose cell is null: [getString] returns null, [getInt] returns 0,
    [getFloat]/[getDouble] return 0.0, [getBoolean] returns false,
    [getObject] returns null, and immediately after each such call
    [wasNull()] is true; a scalar accessor call on a non-null cell (of
    any cursor, so also of the cursor such a call leaves) returns and
    sets [wasNull()] to false. *)
Theorem null_cell_accessors c column i row :
  resolveColumn column c = (Return i, c) →
  1 ≤ i ≤ len (schema c) →
  index (data c) (currentRow c) = Some row →
  (index row (i - 1) = Some CNull →
     getString column c = (Return RNull, set_wasNull true c)
     ∧ getInt column c = (Return zero, set_wasNull true c)
     ∧ getFloat column c = (Return zero, set_wasNull true c)
     ∧ getDouble column c = (Return zero, set_wasNull true c)
     ∧ getBoolean column c = (Return false, set_wasNull true c)
     ∧ getObject column c = (Return VNull, set_wasNull true c)
     ∧ wasNull (set_wasNull true c) = true)
  ∧ (∀ s, index row (i - 1) = Some (CText s) →
     ∀ a, ∃ v, call a column c = (Return v, set_wasNull false c)
               ∧ wasNull (set_wasNull false c) = false).
Proof.
  intros Hcol Hi Hrow. split.
  - intros Hx.
    destruct (accessors_on_cell c column i row CNull Hcol Hi Hrow Hx)
      as (Hs & Hn & Hf & Hb & Ho & _).
    unfold getDouble. rewrite Hs, Hn, Hf, Hb, (Ho eq_refl). done.
  - intros s Hx a.
    destruct (accessors_on_cell c column i row (CText s) Hcol Hi Hrow Hx)
      as (Hs & Hn & Hf & Hb & _ & Ho).
    destruct (Ho s eq_refl) as [w Hw].
    destruct a; unfold call, getDouble;
      rewrite ?(bind_return _ _ _ _ _ Hs), ?(bind_return _ _ _ _ _ Hn),
        ?(bind_return _ _ _ _ _ Hf), ?(bind_return _ _ _ _ _ Hb), ?Hw;
      eauto.
Qed.

(** C9, as amended. For every cursor whose position does not index a
    valid row (before-first or after-last), every scalar accessor call
    fails synchronously and leaves the cursor state, position and
    wasNull flag, unchanged: with the navigation error when the column
    reference is an index or a name that resolves, and with the
    column-not-found error when it is a name that no column matches (the
    name is resolved first). Likewise a call whose resolved column index
    lies outside [1, columnCount] fails without changing cursor state,
    with the navigation error off a valid row and the column-index error
    on one. *)
Theorem accessor_failure c a column :
  (¬ on_row c →
     (∀ i, resolveColumn column c = (Return i, c) →
           call a column c = (Throw NoCurrentRow, c))
     ∧ (∀ e, resolveColumn column c = (Throw e, c) →
           call a column c = (Throw e, c)
           ∧ ∃ label, column = ByName label ∧ e = ColumnNotFound label)
     ∧ ∃ e, call a column c = (Throw e, c))
  ∧ (∀ i, resolveColumn column c = (Return i, c) →
       ¬ (1 ≤ i ≤ len (schema c)) →
       call a column c
       = (Throw (if bool_decide (on_row c) then InvalidColumnIndex i
                 else NoCurrentRow), c)).
Proof.
  assert (Hcall : ∀ e,
    getString column c = (Throw e, c) → getInt column c = (Throw e, c) →
    getFloat column c = (Throw e, c) → getBoolean column c = (Throw e, c) →
    getObject column c = (Throw e, c) → call a column c = (Throw e, c)).
  { intros e Hs Hn Hf Hb Ho.
    destruct a; unfold call, getDouble;
      by rewrite ?(bind_throw _ _ _ _ _ Hs), ?(bind_throw _ _ _ _ _ Hn),
           ?(bind_throw _ _ _ _ _ Hf), ?(bind_throw _ _ _ _ _ Hb), ?Ho. }
  assert (Hthrow : ∀ i e,
    resolveColumn column c = (Return i, c) →
    getValue i c = (Throw e, c) → call a column c = (Throw e, c)).
  { intros i e Hcol Hv.
    apply Hcall; unfold getString, getInt, getFloat, getBoolean, getObject;
      by rewrite (bind_return _ _ _ _ _ Hcol), (bind_throw _ _ _ _ _ Hv). }
  assert (Hname : ∀ e,
    resolveColumn column c = (Throw e, c) → call a column c = (Throw e, c)).
  { intros e Hcol.
    apply Hcall; unfold getString, getInt, getFloat, getBoolean, getObject;
      by rewrite (bind_throw _ _ _ _ _ Hcol). }
  split.
  - intros Hoff. split; [|split].
    + intros i Hcol. apply (Hthrow i); [done|]. by apply getValue_off_row.
    + intros e Hcol. split; [by apply Hname|].
      destruct (resolveColumn_cases column c)
        as [[i Hi] | (label & -> & Hl)]; [congruence|].
      exists label. split; [done|]. congruence.
    + destruct (resolveColumn_cases column c)
        as [[i Hi] | (label & -> & Hl)].
      * exists NoCurrentRow. apply (Hthrow i); [done|].
        by apply getValue_off_row.
      * eexists. by apply Hname.
  - intros i Hcol Hi. apply (Hthrow i); [done|]. case_bool_decide.
    + by apply getValue_bad_index.
    + by apply getValue_off_row.
Qed.

End Accessor_claims.

(** ** Bulk extraction *)

Section ToArray.
Context `{Host}.

Implicit Types (c : cursor) (o row : object number) (key : string).

Lemma get_set_own_ne key' key (v : jsvalue number) ps :
  key' ≠ key → get_own key (set_own key' v ps) = get_own key ps.
Proof.
  intros Hne. induction ps as [|[k w] ps IH]; cbn.
  - by rewrite bool_decide_eq_false_2.
  - destruct (decide (k = key')) as [->|Hk].
    + rewrite bool_decide_eq_true_2 by done. cbn.
      by rewrite bool_decide_eq_false_2.
    + rewrite (bool_decide_eq_false_2 (k = key')) by done. cbn.
      by rewrite IH.
Qed.

Lemma get_set_own_eq key (v : jsvalue number) ps :
  get_own key (set_own key v ps) = Some v.
Proof.
  induction ps as [|[k w] ps IH]; cbn.
  - by rewrite bool_decide_eq_true_2.
  - destruct (decide (k = key)) as [->|Hk].
    + rewrite bool_decide_eq_true_2 by done. cbn.
      by rewrite bool_decide_eq_true_2.
    + rewrite bool_decide_eq_false_2 by done. cbn.
      by rewrite bool_decide_eq_false_2.
Qed.

Lemma own_assign_ne key' key v o :
  key' ≠ key → get (assign key' v o) key = get o key.
Proof.
  intros Hne. unfold assign.
  destruct (bool_decide (key' = "__proto__") && inherits o).
  - by destruct v.
  - unfold get. cbn. by apply get_set_own_ne.
Qed.

Lemma own_assign_eq key v o :
  key ≠ "__proto__" → get (assign key v o) key = Some v.
Proof.
  intros Hne. unfold assign. rewrite bool_decide_eq_false_2 by done.
  unfold get. cbn. apply get_set_own_eq.
Qed.

(** [getObject] by index on a valid row is the coercion of the cell. *)
Lemma getObject_coerce (i : Z) c f :
  on_row c →
  index (schema c) (i - 1) = Some f →
  let v := cell_raw c (currentRow c) i in
  getObject (ByIndex i) c
  = (coerce (data_type f) v, set_wasNull (is_null v) c).
Proof.
  intros Hc Hf v. pose proof (index_Some_range _ _ _ Hf).
  destruct (index_in_range (data c) (currentRow c)) as (row & Hrow & _);
    [done|].
  unfold getObject, resolveColumn.
  rewrite (bind_return _ _ c i c eq_refl).
  rewrite (bind_return _ _ _ _ _ (getValue_cell i c row Hrow ltac:(lia))).
  subst v. unfold cell_raw. rewrite Hrow.
  unfold bind, assign_wasNull, this, ret, throw, lower_is_true, coerce.
  destruct (index row (i - 1)) as [[|s]|]; cbn; [done| |];
    rewrite Hf; repeat case_match; done.
Qed.

Lemma coerce_throw (dataType : string) (v : raw) e :
  coerce dataType v = Throw e → v = RUndefined ∧ e = TypeError.
Proof.
  unfold coerce. destruct v; repeat case_match; naive_solver.
Qed.

Lemma toArray_for_S (n : nat) (i : Z) row c :
  toArray_for (S n) i row c =
    match index (schema c) (i - 1) with
    | None => (Throw TypeError, c)
    | Some f =>
        match getObject (ByIndex i) c with
        | (Return v, c1) => toArray_for n (i + 1) (assign (name f) v row) c1
        | (Throw e, c1) => (Throw e, c1)
        end
    end.
Proof.
  cbn [toArray_for]. unfold bind at 1. unfold this.
  by destruct (index (schema c) (i - 1)).
Qed.

(** The column loop on a valid row, from column [i] on: it throws at a
    cell missing from the row, or it returns the row object with the
    columns from [i] on assigned and leaves the flag of the last
    column. *)
Lemma toArray_for_spec (n : nat) : ∀ (i : Z) row c,
  on_row c → 1 ≤ i → i + Z.of_nat n = len (schema c) + 1 →
  (∃ c' j, toArray_for n i row c = (Throw TypeError, c')
           ∧ (data c' = data c ∧ schema c' = schema c
              ∧ currentRow c' = currentRow c)
           ∧ i ≤ j ≤ len (schema c)
           ∧ cell_raw c (currentRow c) j = RUndefined)
  ∨ ∃ row',
      toArray_for n i row c
      = (Return row',
         match n with
         | O => c
         | S _ =>
             set_wasNull
               (is_null (cell_raw c (currentRow c) (len (schema c)))) c
         end)
      ∧ (∀ key j f,
           key ≠ "__proto__" → i ≤ j →
           index (schema c) (j - 1) = Some f → name f = key →
           (∀ j' f', j < j' → index (schema c) (j' - 1) = Some f' →
                     name f' ≠ key) →
           ∃ v, get row' key = Some v
                ∧ coerce (data_type f) (cell_raw c (currentRow c) j)
                  = Return v)
      ∧ (∀ key,
           (∀ j f, i ≤ j → index (schema c) (j - 1) = Some f →
                   name f ≠ key) →
           get row' key = get row key).
Proof.
  induction n as [|n IH]; intros i row c Hc Hi Hn.
  - right. exists row. split; [done|]. split; [|done].
    intros key j f _ Hj Hf. apply index_Some_range in Hf. lia.
  - destruct (index_in_range (schema c) (i - 1)) as (f & Hf & _); [lia|].
    rewrite toArray_for_S, Hf, (getObject_coerce i c f Hc Hf).
    destruct (coerce (data_type f) (cell_raw c (currentRow c) i))
      as [v|e] eqn:Hv.
    + set (c1 := set_wasNull (is_null (cell_raw c (currentRow c) i)) c).
      destruct (IH (i + 1) (assign (name f) v row) c1)
        as [(c' & j & Hthrow & Hsame & Hj & Hundef)
           | (row' & Hret & Hlast & Hrest)];
        [done|lia|cbn; lia|..].
      * left. exists c', j. split; [done|]. split; [done|].
        split; [cbn in Hj; lia|done].
      * right. exists row'. split; [|split].
        -- rewrite Hret. f_equal. destruct n as [|n]; [|done].
           subst c1. by replace (len (schema c)) with i by lia.
        -- intros key j g Hkey Hj Hg Hname Hlater.
           destruct (decide (j = i)) as [->|Hji].
           ++ exists v. assert (g = f) as -> by congruence.
              split; [|done]. rewrite Hrest.
              ** subst key. by apply own_assign_eq.
              ** intros j' f' Hj' Hf'. apply (Hlater j'); [lia|done].
           ++ apply (Hlast key j g); [done|lia|done..].
        -- intros key Hnone. rewrite Hrest.
           ++ apply own_assign_ne. by apply (Hnone i); [lia|].
           ++ intros j g Hj Hg. apply (Hnone j); [lia|done].
    + apply coerce_throw in Hv as [Hv ->].
      left. eexists _, i. split; [done|]. split; [done|].
      split; [lia|done].
Qed.

Lemma index_None_range {A} (l : list A) (i : Z) :
  index l i = None → 0 ≤ i → len l ≤ i.
Proof.
  unfold index, len. intros Hi Hpos. case_decide; [|lia].
  apply lookup_ge_None in Hi. lia.
Qed.

Lemma record_cells_view c1 c2 (r : Z) o :
  data c1 = data c2 → schema c1 = schema c2 →
  record_cells c1 r o → record_cells c2 r o.
Proof.
  unfold record_cells, cell_raw. by intros -> ->.
Qed.

Lemma full_rows_view c1 c2 :
  data c1 = data c2 → schema c1 = schema c2 →
  full_rows c1 → full_rows c2.
Proof. unfold full_rows. by intros -> ->. Qed.

Lemma flag_after_view (k : nat) c1 c2 :
  data c1 = data c2 → schema c1 = schema c2 → _wasNull c1 = _wasNull c2 →
  flag_after k c1 = flag_after k c2.
Proof. unfold flag_after, cell_raw. by intros -> -> ->. Qed.

(** A cell missing from a row of the grid: the rows are not full. *)
Lemma undefined_not_full c (r j : Z) :
  0 ≤ r < rowCount c → 1 ≤ j ≤ len (schema c) →
  cell_raw c r j = RUndefined → ¬ full_rows c.
Proof.
  intros Hr Hj Hundef Hfull.
  destruct (index_in_range (data c) r) as (row & Hrow & Hlk); [done|].
  unfold cell_raw in Hundef. rewrite Hrow in Hundef.
  destruct (index row (j - 1)) as [x|] eqn:Hx; [by destruct x|].
  apply index_None_range in Hx; [|lia].
  specialize (Hfull row (list_elem_of_lookup_2 _ _ _ Hlk)). lia.
Qed.

(** The row loop from a position with [k] rows left. *)
Lemma toArray_while_spec (k : nat) : ∀ rows c,
  -1 ≤ currentRow c →
  currentRow c + 1 + Z.of_nat k = len (data c) →
  ∃ res,
    (∀ fuel, (k < fuel)%nat → toArray_while fuel rows c = Some res)
    ∧ data res.2 = data c ∧ schema res.2 = schema c
    ∧ match res.1 with
      | Throw e => e = TypeError ∧ ¬ full_rows c
      | Return rows' =>
          currentRow res.2 = len (data c)
          ∧ _wasNull res.2 = flag_after k c
          ∧ ∃ more,
              rows' = (rows ++ more)%list ∧ length more = k
              ∧ ∀ (m : nat) o, more !! m = Some o →
                  record_cells c (currentRow c + 1 + Z.of_nat m) o
      end.
Proof.
  induction k as [|k IH]; intros rows c Hlow Hk.
  - exists (Return rows, set_currentRow (currentRow c + 1) c).
    split; [|split; [done|split; [done|]]].
    + intros [|fuel] Hfuel; [lia|]. cbn [toArray_while].
      rewrite next_unfold, bool_decide_eq_false_2
        by (unfold rowCount; lia). done.
    + cbn. split; [lia|]. split.
      * unfold flag_after. by rewrite decide_True by auto.
      * exists []. by rewrite app_nil_r.
  - set (c1 := set_currentRow (currentRow c + 1) c).
    assert (Hon : on_row c1) by (unfold on_row, rowCount; cbn; lia).
    assert (Hnext : next c = (true, c1)).
    { rewrite next_unfold, bool_decide_eq_true_2
        by (unfold rowCount; lia). done. }
    destruct (toArray_for_spec (length (schema c1)) 1 empty_object c1)
      as [(c' & j & Hthrow & (Hd & Hs & _) & Hj & Hundef)
         | (row & Hret & Hlast & Hrest)];
      [done|lia|unfold len; lia|..].
    + exists (Throw TypeError, c'). split; [|split; [done|split; [done|]]].
      * intros [|fuel] Hfuel; [lia|]. cbn [toArray_while].
        by rewrite Hnext, Hthrow.
      * cbn. split; [done|].
        apply (undefined_not_full c (currentRow c + 1) j);
          [unfold rowCount; lia|done|done].
    + set (c2 := match length (schema c1) with
                 | O => c1
                 | S _ =>
                     set_wasNull
                       (is_null (cell_raw c1 (currentRow c1)
                                   (len (schema c1)))) c1
                 end) in Hret.
      assert (Hd2 : data c2 = data c)
        by (subst c2; by destruct (length (schema c1))).
      assert (Hs2 : schema c2 = schema c)
        by (subst c2; by destruct (length (schema c1))).
      assert (Hr2 : currentRow c2 = currentRow c + 1)
        by (subst c2; by destruct (length (schema c1))).
      assert (Hw2 : _wasNull c2
                    = if decide (schema c = []) then _wasNull c
                      else is_null (cell_raw c (currentRow c + 1)
                                      (len (schema c)))).
      { subst c2 c1. cbn. destruct (schema c); by cbn. }
      assert (Hrow : record_cells c (currentRow c + 1) row).
      { split.
        - intros key j f Hkey Hf Hname Hlater.
          pose proof (index_Some_range _ _ _ Hf).
          apply (Hlast key j f); [done|lia|done..].
        - intros key Hnone. rewrite Hrest; [done|].
          intros j f _ Hf. apply Hnone.
          unfold index in Hf. case_decide; [|done].
          by eapply list_elem_of_lookup_2. }
      destruct (IH (rows ++ [row])%list c2)
        as (res & Hfuel & Hd & Hs & Hres); [lia|rewrite Hd2; lia|].
      exists res. split; [|split; [congruence|split; [congruence|]]].
      * intros [|fuel] Hlt; [lia|]. cbn [toArray_while].
        rewrite Hnext, Hret. apply Hfuel. lia.
      * destruct res as [[rows'|e] c']; cbn in *.
        -- destruct Hres as (Hpos & Hflag & more & -> & Hlen & Hmore).
           split; [congruence|]. split.
           ++ rewrite Hflag. unfold flag_after.
              rewrite Hs2, Hw2, Hd2.
              destruct (decide (schema c = [])) as [Hnil|Hnil].
              ** by rewrite !decide_True by auto.
              ** rewrite (decide_False (P := S k = 0%nat ∨ _))
                   by (intros [|]; done).
                 destruct k as [|k].
                 --- rewrite decide_True by auto.
                     do 2 f_equal. lia.
                 --- rewrite decide_False by (intros [|]; done).
                     unfold cell_raw. by rewrite Hd2.
           ++ exists (row :: more). split; [by rewrite <- app_assoc|].
              split; [cbn; lia|].
              intros [|m] o Ho; cbn in Ho.
              ** injection Ho as <-. by rewrite Z.add_0_r.
              ** apply (record_cells_view c2 c); [done..|].
                 replace (currentRow c + 1 + Z.of_nat (S m))
                   with (currentRow c2 + 1 + Z.of_nat m) by lia.
                 by apply Hmore.
        -- destruct Hres as [-> Hfull]. split; [done|].
           intros Hc. apply Hfull. by apply (full_rows_view c c2).
Qed.

Lemma record_of_cells c (r : Z) o :
  0 ≤ r < rowCount c → record_cells c r o → record_of c r o.
Proof.
  intros Hr [Hcols Hnone]. split; [|done].
  intros key j Hkey [(f & Hf & Hname) Hlater].
  destruct (Hcols key j f) as (v & Hv & Hco); [done..|].
  exists v. split; [done|].
  by rewrite (getObject_coerce j (set_currentRow r c) f).
Qed.

(** [toArray] in terms of the row loop. *)
Lemma toArray_outcome c :
  ∃ res,
    (∀ fuel, (length (data c) < fuel)%nat → toArray_fuel fuel c = Some res)
    ∧ data res.2 = data c ∧ schema res.2 = schema c
    ∧ match res.1 with
      | Throw e => e = TypeError ∧ ¬ full_rows c
      | Return rows =>
          currentRow res.2 = currentRow c
          ∧ _wasNull res.2 = flag_after (length (data c)) c
          ∧ length rows = length (data c)
          ∧ ∀ (r : nat) o,
              rows !! r = Some o → record_cells c (Z.of_nat r) o
      end.
Proof.
  destruct (toArray_while_spec (length (data c)) [] (beforeFirst c))
    as (res & Hfuel & Hd & Hs & Hres); [cbn; lia|cbn; unfold len; lia|].
  destruct res as [[rows|e] c']; cbn in *.
  - destruct Hres as (Hpos & Hflag & more & -> & Hlen & Hmore).
    exists (Return more, set_currentRow (currentRow c) c').
    split; [|done].
    intros fuel Hlt. unfold toArray_fuel. by rewrite (Hfuel fuel Hlt).
  - exists (Throw e, c'). split; [|done].
    intros fuel Hlt. unfold toArray_fuel. by rewrite (Hfuel fuel Hlt).
Qed.

(** C6, as amended. For every cursor and every current position p,
    [toArray()] terminates, and returns whenever every row has a cell for
    every column; when it returns, it returns one keyed record per row of
    the grid, in row order, each record mapping every column name other
    than ["__proto__"] to the value [getObject] yields for the cell of
    the last column bearing that name (so for every column when names
    are distinct) and holding no other key, and after the call the cursor
    position is again p. *)
Theorem toArray_spec c :
  (∃ res, toArray c = Some res
          ∧ ∀ fuel, (length (data c) < fuel)%nat →
                    toArray_fuel fuel c = Some res)
  ∧ (full_rows c → ∃ rows c', toArray c = Some (Return rows, c'))
  ∧ ∀ rows c', toArray c = Some (Return rows, c') →
      currentRow c' = currentRow c
      ∧ data c' = data c ∧ schema c' = schema c
      ∧ length rows = length (data c)
      ∧ ∀ r : nat, (r < length (data c))%nat →
          ∃ o, rows !! r = Some o ∧ record_of c (Z.of_nat r) o.
Proof.
  destruct (toArray_outcome c) as (res & Hfuel & Hd & Hs & Hres).
  assert (Hrun : toArray c = Some res) by (apply Hfuel; lia).
  split; [by exists res|]. split.
  - intros Hfull. destruct res as [[rows|e] c']; [by eauto|].
    cbn in Hres. by destruct Hres as [_ []].
  - intros rows c' Hret. rewrite Hrun in Hret. injection Hret as ->.
    cbn in *. destruct Hres as (Hpos & _ & Hlen & Hrows).
    do 4 (split; [done|]). intros r Hr.
    destruct (lookup_lt_is_Some_2 rows r) as [o Ho]; [lia|].
    exists o. split; [done|]. apply record_of_cells; [|by apply Hrows].
    unfold rowCount, len. lia.
Qed.

(** C10. [toArray()] restores only the cursor position, not the wasNull
    flag: for every cursor over a non-empty grid with a non-empty
    schema, after [toArray()] returns, the cursor is the one before the
    call with nothing but the flag replaced (so the position is the saved
    one again, on whatever row or off-row position the call started, and
    grid and schema are untouched), and [wasNull()] equals whether the
    last row's last column cell is null, regardless of the flag's value
    before the call. *)
Theorem toArray_wasNull c rows c' (last_row : list cell) :
  schema c ≠ [] →
  list.last (data c) = Some last_row →
  toArray c = Some (Return rows, c') →
  currentRow c' = currentRow c
  ∧ c' = set_wasNull (wasNull c') c
  ∧ wasNull c'
    = match index last_row (len (schema c) - 1) with
      | Some CNull => true
      | _ => false
      end
  ∧ ∀ (before : bool) rows0 c0,
      toArray (set_wasNull before c) = Some (Return rows0, c0) →
      currentRow c0 = currentRow c ∧ wasNull c0 = wasNull c'.
Proof.
  intros Hschema Hlast Hret.
  assert (Hflag : ∀ c1 rows1 c1',
            data c1 = data c → schema c1 = schema c →
            toArray c1 = Some (Return rows1, c1') →
            data c1' = data c1 ∧ schema c1' = schema c1
            ∧ currentRow c1' = currentRow c1
            ∧ wasNull c1'
              = match index last_row (len (schema c) - 1) with
                | Some CNull => true
                | _ => false
                end).
  { intros c1 rows1 c1' Hd1 Hs1 Hret1.
    destruct (toArray_outcome c1) as (res & Hfuel & Hd & Hs & Hres).
    assert (Hrun : toArray c1 = Some res) by (apply Hfuel; lia).
    rewrite Hrun in Hret1. injection Hret1 as ->. cbn in Hd, Hs, Hres.
    destruct Hres as (Hpos & Hflag & _).
    split; [done|]. split; [done|]. split; [done|].
    unfold wasNull. rewrite Hflag.
    rewrite last_lookup in Hlast.
    assert (length (data c) ≠ 0%nat) by (by destruct (data c)).
    unfold flag_after. rewrite Hd1, Hs1.
    rewrite decide_False by (intros [|]; done).
    unfold cell_raw, len. rewrite Hd1.
    replace (Z.of_nat (length (data c)) - 1)
      with (Z.of_nat (pred (length (data c)))) by lia.
    rewrite index_lookup, Hlast.
    by destruct (index last_row _) as [[|s]|]. }
  destruct (Hflag c rows c' eq_refl eq_refl Hret) as (Hd & Hs & Hpos & Hw).
  split; [done|]. split; [|split; [done|]].
  - destruct c, c'. cbn in *. by subst.
  - intros before rows0 c0 Hret0.
    destruct (Hflag (set_wasNull before c) rows0 c0 eq_refl eq_refl Hret0)
      as (_ & _ & Hpos0 & Hw0).
    split; [done|]. by rewrite Hw0, Hw.
Qed.

End ToArray.

(** ** The chunk pump *)

Section Pump_order.
Context {parser : Type} (write : parser → list Byte.byte → parser).

(** The assumption on the third-party parser: it consumes its input byte
    by byte, so that the boundaries between the chunks it is written do
    not matter to it. *)
Hypothesis write_nil : ∀ p, write p [] = p.
Hypothesis write_app : ∀ p a b, write p (a ++ b) = write (write p a) b.

(** The pump hands the parser the bytes of the body in order: under the
    assumption, any chunking leaves the parser where the whole body in
    one chunk leaves it. *)
Lemma pump_concat (chunks : list (list Byte.byte)) (p : parser) :
  JsonStream.pump write chunks p = write p (concat chunks).
Proof.
  unfold JsonStream.pump. revert p.
  induction chunks as [|chunk chunks IH]; intros p; cbn.
  - by rewrite write_nil.
  - by rewrite IH, write_app.
Qed.

End Pump_order.

(** ** Concrete cursors *)

Section Examples.

#[local] Existing Instance Sample.host.

(** tests/result-set.test.ts, testNext and testNavigation *)
Example testNext :
  let '(b1, c1) := next Sample.fresh in
  let '(b2, c2) := next c1 in
  let '(b3, c3) := next c2 in
  let '(b4, c4) := next c3 in
  [b1; b2; b3; b4] = [true; true; true; false]
  ∧ (getInt (ByIndex 1) c1).1 = Return (Sample.IntOf "1")
  ∧ (getString (ByName "name") c3).1 = Return RNull
  ∧ isAfterLast c4 = true.
Proof. vm_compute. done. Qed.

(** testToArray *)
Example testToArray :
  match toArray Sample.fresh with
  | Some (Return [o1; o2; o3], c') =>
      get o3 "name" = Some VNull
      ∧ get o3 "id" = Some (VNumber (Sample.IntOf "3"))
      ∧ get o1 "active" = Some (VBoolean true)
      ∧ currentRow c' = -1
  | _ => False
  end.
Proof. vm_compute. done. Qed.

(** testEmptyResultSet *)
Example testEmptyResultSet :
  (next (new Sample.empty)).1 = false
  ∧ isBeforeFirst (new Sample.empty) = false
  ∧ isFirst (new Sample.empty) = false
  ∧ isLast (new Sample.empty) = false
  ∧ isAfterLast (new Sample.empty) = false
  ∧ getColumnCount (new Sample.empty) = 0.
Proof. vm_compute. done. Qed.

(** C1, counterexample. Over a grid of one row, three [next()] calls
    from the fresh cursor leave the position at 2, beyond
    [rowCount = 1]. *)
Lemma position_beyond_rowCount :
  currentRow (run [Next; Next; Next] (new Sample.one_row)) = 2
  ∧ rowCount (run [Next; Next; Next] (new Sample.one_row)) = 1
  ∧ ¬ (-1 ≤ currentRow (run [Next; Next; Next] (new Sample.one_row))
       ≤ rowCount (run [Next; Next; Next] (new Sample.one_row))).
Proof.
  split; [reflexivity|]. split; [reflexivity|].
  intros [_ Hle]. vm_compute in Hle. by apply Hle.
Qed.

(** C2, counterexample. Over a grid of one row, [next()] called at
    after-last (position 1) returns false and leaves the position at 2,
    not at [R = 1]. *)
Lemma next_beyond_after_last :
  rowCount (afterLast (new Sample.one_row)) = 1
  ∧ currentRow (afterLast (new Sample.one_row)) = 1
  ∧ (next (afterLast (new Sample.one_row))).1 = false
  ∧ currentRow (next (afterLast (new Sample.one_row))).2 = 2
  ∧ currentRow (next (afterLast (new Sample.one_row))).2
    ≠ rowCount (afterLast (new Sample.one_row)).
Proof. cbn. repeat split; done. Qed.

(** C3, counterexample. The entry of testNullResultFallsBackToData has
    its primary field present, holding null, and the cursor takes its
    grid from the fallback field. *)
Lemma null_result_falls_back :
  result Sample.null_result ≠ Absent
  ∧ Types.data Sample.null_result = Has [[CText "42"]]
  ∧ data (new Sample.null_result) = [[CText "42"]]
  ∧ result Sample.null_result ≠ Has (data (new Sample.null_result)).
Proof. cbn. repeat split; done. Qed.

(** C6, counterexample. With two columns named ["a"] over the row
    [["x", "y"]], the record of [toArray()] maps ["a"] to ["y"], while
    [getObject] yields ["x"] for the cell of the first column. *)
Lemma twins_record :
  toArray (new Sample.twins)
  = Some (Return Sample.twins_rows, Sample.twins_after)
  ∧ (∃ f, index (schema (new Sample.twins)) (1 - 1) = Some f ∧ name f = "a")
  ∧ (getObject (ByIndex 1) (set_currentRow 0 (new Sample.twins))).1
    = Return (VString "x")
  ∧ ∃ o, Sample.twins_rows = [o]
         ∧ get o "a" = Some (VString "y")
         ∧ get o "a" ≠ Some (VString "x").
Proof.
  split; [vm_compute; reflexivity|].
  split; [eexists; split; reflexivity|].
  split; [vm_compute; reflexivity|].
  eexists. split; [reflexivity|]. split; vm_compute; [reflexivity|discriminate].
Qed.

(** C7, counterexample. On the fresh cursor over an empty grid [last()]
    leaves the position at -1 and [absolute(-1)] moves it to 0. *)
Lemma absolute_last_empty :
  currentRow (last (new Sample.empty)).2 = -1
  ∧ currentRow (absolute (-1) (new Sample.empty)).2 = 0
  ∧ absolute (-1) (new Sample.empty) ≠ last (new Sample.empty).
Proof. cbn. repeat split; done. Qed.

(** C9, counterexample. Before the first row, [getString] by a name that
    no column matches fails with the column-not-found error, not with
    the navigation error. *)
Lemma unknown_name_before_first :
  ¬ on_row Sample.fresh
  ∧ call GetString (ByName "nonexistent") Sample.fresh
    = (Throw (ColumnNotFound "nonexistent"), Sample.fresh)
  ∧ call GetString (ByName "nonexistent") Sample.fresh
    ≠ (Throw NoCurrentRow, Sample.fresh).
Proof.
  split; [unfold on_row, Sample.fresh; cbn; lia|].
  split; [reflexivity|]. discriminate.
Qed.

(** *** The theorems at concrete cursors *)

Ltac on_sample :=
  unfold Sample.on_second, Sample.on_third, Sample.fresh, Sample.wander,
    Sample.third_row, on_row, rowCount, len, run;
  cbn.

(** [position_range] on the fixture of the tests, along a walk whose only
    [next()] starts before the first row. *)
Lemma position_range_witness :
  next_within Sample.wander (new Sample.people) = true
  ∧ -1 ≤ currentRow (run Sample.wander (new Sample.people))
  ∧ currentRow (run Sample.wander (new Sample.people))
    ≤ rowCount (new Sample.people).
Proof.
  destruct (position_range Sample.people Sample.wander) as [Hlow Hup].
  split; [reflexivity|]. split; [exact Hlow|]. apply Hup. reflexivity.
Defined.

(** [next_spec] on the fresh cursor over the three rows of the fixture. *)
Lemma next_spec_witness :
  (-1 ≤ currentRow Sample.fresh ∧ currentRow Sample.fresh = -1
   ∧ (2 ≤ length (data Sample.fresh))%nat)
  ∧ ((next Sample.fresh).1 = true ↔ on_row (next Sample.fresh).2)
  ∧ (nexts 3 Sample.fresh).1 = [true; true; true]
  ∧ (next (nexts 3 Sample.fresh).2).1 = false
  ∧ getRow (nexts 2 Sample.fresh).2 = 2.
Proof.
  assert (Hlow : -1 ≤ currentRow Sample.fresh) by (on_sample; lia).
  assert (Hstart : currentRow Sample.fresh = -1) by reflexivity.
  assert (Htwo : (2 ≤ length (data Sample.fresh))%nat) by (on_sample; lia).
  destruct (next_spec Sample.fresh) as [Hany Hfirst].
  destruct (Hany Hlow) as (_ & _ & Hiff & _).
  destruct (Hfirst Hstart) as (Hall & Hend & Hrows).
  destruct (Hrows 2%nat Htwo) as [_ Hrow].
  split; [done|]. split; [exact Hiff|]. split; [exact Hall|].
  split; [exact Hend|exact Hrow].
Defined.

(** [grid_resolution] on an entry with an empty primary list and on one
    with a null primary field. *)
Lemma grid_resolution_witness :
  (result Sample.empty = Has []
   ∧ (result Sample.null_result = Absent
      ∨ result Sample.null_result = Null))
  ∧ data (new Sample.empty) = []
  ∧ data (new Sample.null_result) = [[CText "42"]].
Proof.
  assert (Hempty : result Sample.empty = Has []) by reflexivity.
  assert (Hnull : result Sample.null_result = Absent
                  ∨ result Sample.null_result = Null)
    by (right; reflexivity).
  destruct (grid_resolution Sample.empty) as (_ & Hlit & _).
  destruct (grid_resolution Sample.null_result) as (_ & _ & Hfall).
  split; [done|]. split; [exact (Hlit Hempty)|exact (Hfall Hnull)].
Defined.

(** [absolute_minus_one] on the second row of the fixture and on the
    empty grid. *)
Lemma absolute_minus_one_witness :
  (rowCount Sample.on_second ≠ 0 ∧ rowCount (new Sample.empty) = 0)
  ∧ absolute (-1) Sample.on_second = last Sample.on_second
  ∧ (last (new Sample.empty)).2 = new Sample.empty
  ∧ currentRow (absolute (-1) (new Sample.empty)).2 = 0.
Proof.
  assert (Hrows : rowCount Sample.on_second ≠ 0) by (on_sample; lia).
  assert (Hnone : rowCount (new Sample.empty) = 0) by reflexivity.
  destruct (absolute_minus_one Sample.on_second) as [Hsame _].
  destruct (absolute_minus_one (new Sample.empty)) as [_ Hempty].
  destruct (Hempty Hnone) as (_ & _ & Hpos & Hstay).
  split; [done|]. split; [exact (Hsame Hrows)|].
  split; [exact Hstay|exact Hpos].
Defined.

(** [findColumn_spec] on the fixture: ["NAME"] is column 2, and no column
    is called ["nonexistent"]. *)
Lemma findColumn_spec_witness :
  ((∃ f, index (schema Sample.fresh) (2 - 1) = Some f ∧ matches "NAME" f)
   ∧ (∀ j g, j < 2 → index (schema Sample.fresh) (j - 1) = Some g →
             ¬ matches "NAME" g)
   ∧ ∀ f, f ∈ schema Sample.fresh → ¬ matches "nonexistent" f)
  ∧ findColumn "NAME" Sample.fresh = (Return 2, Sample.fresh)
  ∧ findColumn "nonexistent" Sample.fresh
    = (Throw (ColumnNotFound "nonexistent"), Sample.fresh).
Proof.
  assert (Hhit : ∃ f, index (schema Sample.fresh) (2 - 1) = Some f
                      ∧ matches "NAME" f)
    by (eexists; split; reflexivity).
  assert (Hbefore : ∀ j g, j < 2 →
            index (schema Sample.fresh) (j - 1) = Some g →
            ¬ matches "NAME" g).
  { intros j g Hj Hg. pose proof (index_Some_range _ _ _ Hg).
    assert (j = 1) as -> by lia. injection Hg as <-.
    vm_compute. discriminate. }
  assert (Hmiss : ∀ f, f ∈ schema Sample.fresh →
                       ¬ matches "nonexistent" f).
  { intros f Hf. cbn in Hf.
    repeat (apply elem_of_cons in Hf as [-> | Hf];
            [vm_compute; discriminate|]).
    by apply elem_of_nil in Hf. }
  destruct (findColumn_spec Sample.fresh "NAME") as (Hfound & _ & _).
  destruct (findColumn_spec Sample.fresh "nonexistent") as (_ & Hnone & _).
  split; [done|]. split.
  - apply Hfound. by split.
  - by apply Hnone.
Defined.

(** [null_cell_accessors] on the third row of the fixture, whose name is
    null and whose id is ["3"]. *)
Lemma null_cell_accessors_witness :
  (resolveColumn (ByName "Name") Sample.on_third = (Return 2, Sample.on_third)
   ∧ resolveColumn (ByIndex 1) (set_wasNull true Sample.on_third)
     = (Return 1, set_wasNull true Sample.on_third)
   ∧ index (data Sample.on_third) (currentRow Sample.on_third)
     = Some Sample.third_row
   ∧ index Sample.third_row (2 - 1) = Some CNull
   ∧ index Sample.third_row (1 - 1) = Some (CText "3"))
  ∧ getString (ByName "Name") Sample.on_third
    = (Return RNull, set_wasNull true Sample.on_third)
  ∧ getBoolean (ByName "Name") Sample.on_third
    = (Return false, set_wasNull true Sample.on_third)
  ∧ ∃ v, call GetInt (ByIndex 1) (set_wasNull true Sample.on_third)
         = (Return v, set_wasNull false (set_wasNull true Sample.on_third)).
Proof.
  assert (Hname : resolveColumn (ByName "Name") Sample.on_third
                  = (Return 2, Sample.on_third)) by reflexivity.
  assert (Hidx : resolveColumn (ByIndex 1) (set_wasNull true Sample.on_third)
                 = (Return 1, set_wasNull true Sample.on_third))
    by reflexivity.
  assert (Hrow : index (data Sample.on_third) (currentRow Sample.on_third)
                 = Some Sample.third_row) by reflexivity.
  assert (Hnull : index Sample.third_row (2 - 1) = Some CNull)
    by reflexivity.
  assert (Htext : index Sample.third_row (1 - 1) = Some (CText "3"))
    by reflexivity.
  destruct (null_cell_accessors Sample.on_third (ByName "Name") 2
              Sample.third_row Hname ltac:(on_sample; lia) Hrow) as [Hn _].
  destruct (null_cell_accessors (set_wasNull true Sample.on_third)
              (ByIndex 1) 1 Sample.third_row Hidx ltac:(on_sample; lia) Hrow)
    as [_ Ht].
  destruct (Hn Hnull) as (Hs & _ & _ & _ & Hb & _).
  destruct (Ht "3" Htext GetInt) as (v & Hv & _).
  split; [done|]. split; [exact Hs|]. split; [exact Hb|].
  exists v. exact Hv.
Defined.

(** [accessor_failure] before the first row of the fixture, and on its
    second row with column index 9. *)
Lemma accessor_failure_witness :
  (¬ on_row Sample.fresh
   ∧ resolveColumn (ByIndex 1) Sample.fresh = (Return 1, Sample.fresh)
   ∧ resolveColumn (ByName "nope") Sample.fresh
     = (Throw (ColumnNotFound "nope"), Sample.fresh)
   ∧ resolveColumn (ByIndex 9) Sample.on_second
     = (Return 9, Sample.on_second)
   ∧ ¬ (1 ≤ 9 ≤ len (schema Sample.on_second)))
  ∧ call GetObject (ByIndex 1) Sample.fresh
    = (Throw NoCurrentRow, Sample.fresh)
  ∧ call GetInt (ByName "nope") Sample.fresh
    = (Throw (ColumnNotFound "nope"), Sample.fresh)
  ∧ call GetBoolean (ByIndex 9) Sample.on_second
    = (Throw (InvalidColumnIndex 9), Sample.on_second).
Proof.
  assert (Hoff : ¬ on_row Sample.fresh) by (on_sample; lia).
  assert (Hone : resolveColumn (ByIndex 1) Sample.fresh
                 = (Return 1, Sample.fresh)) by reflexivity.
  assert (Hnope : resolveColumn (ByName "nope") Sample.fresh
                  = (Throw (ColumnNotFound "nope"), Sample.fresh))
    by reflexivity.
  assert (Hnine : resolveColumn (ByIndex 9) Sample.on_second
                  = (Return 9, Sample.on_second)) by reflexivity.
  assert (Hout : ¬ (1 ≤ 9 ≤ len (schema Sample.on_second)))
    by (on_sample; lia).
  destruct (accessor_failure Sample.fresh GetObject (ByIndex 1))
    as [Hnav _].
  destruct (accessor_failure Sample.fresh GetInt (ByName "nope"))
    as [Hlook _].
  destruct (accessor_failure Sample.on_second GetBoolean (ByIndex 9))
    as [_ Hrange].
  destruct (Hnav Hoff) as (Hnav1 & _ & _).
  destruct (Hlook Hoff) as (_ & Hlook2 & _).
  destruct (Hlook2 _ Hnope) as [Hlook3 _].
  split; [done|]. split; [exact (Hnav1 1 Hone)|]. split; [exact Hlook3|].
  exact (Hrange 9 Hnine Hout).
Defined.

(** [toArray_spec] on the fixture, called from the second row. *)
Lemma toArray_spec_witness :
  (full_rows Sample.on_second
   ∧ toArray Sample.on_second
     = Some (Return Sample.second_rows, Sample.second_after)
   ∧ (2 < length (data Sample.on_second))%nat)
  ∧ currentRow Sample.second_after = 1
  ∧ length Sample.second_rows = 3%nat
  ∧ ∃ o, Sample.second_rows !! 2%nat = Some o
         ∧ record_of Sample.on_second 2 o.
Proof.
  assert (Hfull : full_rows Sample.on_second).
  { intros row Hrow. unfold Sample.on_second, Sample.fresh, run in Hrow.
    cbn in Hrow.
    repeat (apply elem_of_cons in Hrow as [-> | Hrow]; [on_sample; lia|]).
    by apply elem_of_nil in Hrow. }
  assert (Hrun : toArray Sample.on_second
                 = Some (Return Sample.second_rows, Sample.second_after))
    by (vm_compute; reflexivity).
  assert (Hlen : (2 < length (data Sample.on_second))%nat) by (on_sample; lia).
  destruct (toArray_spec Sample.on_second) as (_ & _ & Hrows).
  destruct (Hrows _ _ Hrun) as (Hpos & _ & _ & Hcount & Hrecord).
  split; [done|]. split; [exact Hpos|]. split; [exact Hcount|].
  exact (Hrecord 2%nat Hlen).
Defined.

(** [toArray_wasNull] on the cursor on the second row of the fixture:
    the call leaves the cursor on the second row, and the flag, false
    before the call (and true or false as one sets it), is true after it,
    the last score being null. *)
Lemma toArray_wasNull_witness :
  (schema Sample.on_second ≠ []
   ∧ list.last (data Sample.on_second) = Some Sample.third_row
   ∧ toArray Sample.on_second
     = Some (Return Sample.second_rows, Sample.second_after))
  ∧ currentRow Sample.on_second = 1
  ∧ wasNull Sample.on_second = false
  ∧ currentRow Sample.second_after = currentRow Sample.on_second
  ∧ Sample.second_after
    = set_wasNull (wasNull Sample.second_after) Sample.on_second
  ∧ wasNull Sample.second_after = true.
Proof.
  assert (Hschema : schema Sample.on_second ≠ []) by discriminate.
  assert (Hlast : list.last (data Sample.on_second) = Some Sample.third_row)
    by reflexivity.
  assert (Hrun : toArray Sample.on_second
                 = Some (Return Sample.second_rows, Sample.second_after))
    by (vm_compute; reflexivity).
  destruct (toArray_wasNull Sample.on_second _ _ Sample.third_row
              Hschema Hlast Hrun) as (Hpos & Hsame & Hflag & _).
  split; [done|]. split; [reflexivity|]. split; [reflexivity|].
  split; [exact Hpos|]. split; [exact Hsame|exact Hflag].
Defined.

End Examples.

(** ** More on navigation *)

Section Navigation_more.

Implicit Types (c : cursor) (n d : Z).

Ltac decide_all :=
  repeat match goal with
  | |- context [bool_decide ?P] =>
      first [ rewrite (bool_decide_eq_true_2 P) by lia
            | rewrite (bool_decide_eq_false_2 P) by lia ]
  end.

(** [absolute(n)]: a positive [n] within the grid selects row [n]
    (1-based), a negative one within the grid counts from the end ([-1]
    the last row), and 0 or any [n] beyond the grid on either side leaves
    the cursor after the last row. *)
Theorem absolute_spec c n :
  (1 ≤ n ≤ rowCount c → absolute n c = (true, set_currentRow (n - 1) c))
  ∧ (- rowCount c ≤ n ≤ -1 →
     absolute n c = (true, set_currentRow (rowCount c + n) c))
  ∧ (n = 0 ∨ rowCount c < n ∨ n < - rowCount c →
     absolute n c = (false, set_currentRow (rowCount c) c)).
Proof.
  unfold rowCount, absolute. pose proof (len_nonneg (data c)).
  split; [|split]; intros Hn.
  - by decide_all.
  - decide_all. cbn. f_equal. apply set_currentRow_eq. lia.
  - destruct (decide (n < 0)).
    + rewrite (bool_decide_eq_true_2 (n < 0)) by done.
      rewrite (bool_decide_eq_true_2 (_ < 1)) by lia. done.
    + rewrite (bool_decide_eq_false_2 (n < 0)) by done.
      destruct (decide (n = 0)) as [->|]; [done|].
      rewrite (bool_decide_eq_false_2 (n < 1)) by lia.
      by rewrite (bool_decide_eq_true_2 (n > _)) by lia.
Qed.

(** [relative(1)] is [next()] from any position below [rowCount], and
    [relative(-1)] is [previous()] from any position in [1, rowCount].
    On the first row they part: [previous()] fails in place, while
    [relative(-1)] fails and moves the cursor after the last row. A
    [relative(d)] that reaches below before-first does not stop there: its
    target is read as a row counted from the end. *)
Theorem relative_spec c d :
  (-1 ≤ currentRow c < rowCount c → relative 1 c = next c)
  ∧ (1 ≤ currentRow c ≤ rowCount c → relative (-1) c = previous c)
  ∧ (currentRow c = 0 →
     relative (-1) c = (false, set_currentRow (rowCount c) c)
     ∧ previous c = (false, c))
  ∧ (- rowCount c ≤ currentRow c + 1 + d < 0 →
     relative d c
     = (true, set_currentRow (rowCount c + (currentRow c + 1 + d)) c)).
Proof.
  unfold rowCount, relative, absolute, next, previous.
  pose proof (len_nonneg (data c)).
  split; [|split; [|split]]; intros Hp.
  - cbn [currentRow data set_currentRow].
    rewrite (bool_decide_eq_false_2 (_ < 0)) by lia.
    rewrite (bool_decide_eq_false_2 (_ < 1)) by lia.
    destruct (decide (currentRow c + 1 < len (data c))).
    + decide_all. cbn. f_equal. apply set_currentRow_eq. lia.
    + decide_all. cbn. f_equal. apply set_currentRow_eq. lia.
  - decide_all. cbn. f_equal. apply set_currentRow_eq. lia.
  - rewrite Hp. split; [|done]. cbn.
    by rewrite (bool_decide_eq_false_2 (0 > _)) by lia.
  - decide_all. cbn. f_equal. apply set_currentRow_eq. lia.
Qed.

(** [next()] then [previous()] returns to the position it started from,
    with [previous()] returning true, from every position at or after the
    first row: from the last row and from after-last too, where [next()]
    itself returns false. [previous()] then [next()] returns to the
    starting position from every position at or after the second row,
    [next()] telling whether that position is a row. The two round trips
    fail at the front of the grid: on the first row or before it
    [previous()] returns false without moving, so [previous()] then
    [next()] ends one position further (from the first row, on the second
    position); and from before-first, [next()] then [previous()] stays on
    the first position, [previous()] returning false. *)
Theorem next_previous c :
  (0 ≤ currentRow c →
     (next c).1 = bool_decide (currentRow c + 1 < rowCount c)
     ∧ previous (next c).2 = (true, c))
  ∧ (1 ≤ currentRow c →
     previous c = (true, set_currentRow (currentRow c - 1) c)
     ∧ next (previous c).2 = (bool_decide (currentRow c < rowCount c), c))
  ∧ (currentRow c ≤ 0 →
     previous c = (false, c)
     ∧ next (previous c).2
       = (bool_decide (currentRow c + 1 < rowCount c),
          set_currentRow (currentRow c + 1) c))
  ∧ (currentRow c = -1 →
     previous (next c).2 = (false, set_currentRow 0 c)).
Proof.
  unfold rowCount, next, previous. split; [|split; [|split]].
  - intros H0. cbn [currentRow data set_currentRow fst snd].
    split; [done|]. rewrite (bool_decide_eq_false_2 (_ ≤ 0)) by lia.
    rewrite set_currentRow_set.
    by rewrite set_currentRow_same by lia.
  - intros Hp. decide_all. cbn [currentRow data set_currentRow fst snd].
    split; [done|]. rewrite set_currentRow_set.
    rewrite (set_currentRow_same _ c) by lia. f_equal.
    apply bool_decide_ext. lia.
  - intros Hp. decide_all. by cbn [fst snd].
  - intros ->. by cbn.
Qed.

Lemma andb_decide (P Q : Prop) `{Decision P, Decision Q} :
  bool_decide P && bool_decide Q = true ↔ P ∧ Q.
Proof. by rewrite andb_true_iff, !bool_decide_eq_true. Qed.

(** Over an empty grid none of the four position checks holds and
    [getRow()] is 0, wherever the cursor is. Over a non-empty grid the
    cursor is before the first row, on a row or after the last row, and
    on exactly one of the three; [getRow()] is not 0 exactly on a row,
    where it is the position plus one, and [isFirst()]/[isLast()] hold
    exactly when [getRow()] is 1 / [rowCount]. *)
Theorem position_checks c :
  (rowCount c = 0 →
     isBeforeFirst c = false ∧ isAfterLast c = false
     ∧ isFirst c = false ∧ isLast c = false ∧ getRow c = 0)
  ∧ (rowCount c ≠ 0 → -1 ≤ currentRow c →
     (isBeforeFirst c = true ↔ currentRow c = -1)
     ∧ (isAfterLast c = true ↔ rowCount c ≤ currentRow c)
     ∧ (on_row c ↔ isBeforeFirst c = false ∧ isAfterLast c = false)
     ∧ (isFirst c = true ↔ getRow c = 1)
     ∧ (isLast c = true ↔ getRow c = rowCount c))
  ∧ (getRow c ≠ 0 ↔ on_row c)
  ∧ (on_row c → getRow c = currentRow c + 1).
Proof.
  unfold isBeforeFirst, isAfterLast, isFirst, isLast, getRow, on_row,
    rowCount.
  pose proof (len_nonneg (data c)) as Hlen.
  split; [|split; [|split]].
  - intros ->. cbn.
    destruct (decide (currentRow c < 0)).
    + by rewrite (bool_decide_eq_true_2 (currentRow c < 0)) by done.
    + rewrite (bool_decide_eq_false_2 (currentRow c < 0)) by done.
      by rewrite (bool_decide_eq_true_2 (currentRow c >= 0)) by lia.
  - intros HR Hp.
    rewrite <- !not_true_iff_false, !andb_decide.
    destruct (decide (currentRow c < 0)) as [Hneg|Hneg].
    + rewrite (bool_decide_eq_true_2 (currentRow c < 0)) by done. cbn.
      intuition lia.
    + rewrite (bool_decide_eq_false_2 (currentRow c < 0)) by done. cbn.
      destruct (decide (currentRow c >= len (data c))) as [Hge|Hge].
      * rewrite (bool_decide_eq_true_2 (currentRow c >= _)) by done.
        intuition lia.
      * rewrite (bool_decide_eq_false_2 (currentRow c >= _)) by done.
        intuition lia.
  - destruct (decide (currentRow c < 0)) as [Hneg|Hneg].
    + rewrite (bool_decide_eq_true_2 (currentRow c < 0)) by done. cbn. lia.
    + rewrite (bool_decide_eq_false_2 (currentRow c < 0)) by done. cbn.
      destruct (decide (currentRow c >= len (data c))) as [Hge|Hge].
      * rewrite (bool_decide_eq_true_2 (currentRow c >= _)) by done. lia.
      * rewrite (bool_decide_eq_false_2 (currentRow c >= _)) by done. lia.
  - intros Hon. by decide_all.
Qed.

(** Over a non-empty grid [first()] and [last()] succeed and leave the
    cursor where [isFirst()] / [isLast()] hold; [first()] is
    [beforeFirst()] followed by [next()], and [last()] is [afterLast()]
    followed by [previous()]. Over an empty grid both fail and leave the
    cursor as it was. *)
Theorem first_last c :
  (rowCount c ≠ 0 →
     first c = (true, set_currentRow 0 c)
     ∧ last c = (true, set_currentRow (rowCount c - 1) c)
     ∧ isFirst (first c).2 = true ∧ isLast (last c).2 = true
     ∧ next (beforeFirst c) = first c
     ∧ previous (afterLast c) = last c)
  ∧ (rowCount c = 0 → first c = (false, c) ∧ last c = (false, c)).
Proof.
  unfold rowCount, first, last, next, previous, beforeFirst, afterLast,
    isFirst, isLast.
  pose proof (len_nonneg (data c)) as Hlen. split; intros HR.
  - rewrite !(bool_decide_eq_false_2 (len (data c) = 0)) by done.
    cbn [currentRow data set_currentRow fst snd]. decide_all.
    by rewrite !set_currentRow_set.
  - by rewrite !(bool_decide_eq_true_2 (len (data c) = 0)) by done.
Qed.

(** No sequence of navigation calls changes the grid, the schema or the
    wasNull flag; so the column count, and what an accessor reads at a
    given position, do not depend on how the cursor got there. *)
Theorem run_frame (ks : list nav) c :
  data (run ks c) = data c
  ∧ schema (run ks c) = schema c
  ∧ wasNull (run ks c) = wasNull c
  ∧ getColumnCount (run ks c) = getColumnCount c
  ∧ run ks c = set_currentRow (currentRow (run ks c)) c.
Proof.
  assert (Hframe : data (run ks c) = data c ∧ schema (run ks c) = schema c
                   ∧ _wasNull (run ks c) = _wasNull c).
  { revert c. induction ks as [|k ks IH]; intros c; [done|].
    cbn. fold (run ks (step k c)).
    destruct (IH (step k c)) as (-> & -> & ->). apply step_frame. }
  destruct Hframe as (Hd & Hs & Hw).
  unfold wasNull, getColumnCount. rewrite Hd, Hs, Hw.
  do 4 (split; [done|]).
  destruct (run ks c) as [d s r w]. cbn in *. by subst.
Qed.

End Navigation_more.

(** ** More on column lookup and accessors *)

Section Accessors_more.
Context `{Host}.

Implicit Types (c : cursor) (column : colref) (a : accessor).

(** [findColumn] in terms of [findIndex]. *)
Lemma findColumn_Return label c (i : Z) :
  findColumn label c = (Return i, c) ↔
  (∃ f, index (schema c) (i - 1) = Some f ∧ matches label f)
  ∧ ∀ (m : nat) g, Z.of_nat m < i - 1 → schema c !! m = Some g →
                   ¬ matches label g.
Proof.
  rewrite findColumn_unfold. cbn. unfold findIndex.
  set (p := λ s : SchemaField,
         bool_decide (toLowerCase (name s) = toLowerCase label)).
  assert (Hp : ∀ f, p f = true ↔ matches label f)
    by (intros f; apply bool_decide_eq_true).
  assert (Hnp : ∀ f, p f = false ↔ ¬ matches label f)
    by (intros f; apply bool_decide_eq_false).
  pose proof (findIndex_from_range p (schema c) 0) as Hrange.
  split.
  - case_bool_decide as Hidx; [done|]. intros [= <-].
    destruct Hrange as [|Hge]; [done|].
    pose proof (findIndex_from_first p (schema c) 0
                  (Z.to_nat (findIndex_from p (schema c) 0)) ltac:(lia))
      as Hfirst.
    rewrite Z2Nat.id, Z.add_0_l in Hfirst by lia.
    destruct (proj1 Hfirst eq_refl) as [(f & Hf & Hpf) Hbefore]. split.
    + exists f. rewrite Z.add_simpl_r. unfold index.
      case_decide; [|lia]. split; [done|]. by apply Hp.
    + intros m g Hm Hg. apply Hnp. apply (Hbefore m); [lia|done].
  - intros [(f & Hf & Hm) Hbefore].
    pose proof (index_Some_range _ _ _ Hf).
    pose proof (findIndex_from_first p (schema c) 0
                  (Z.to_nat (i - 1)) ltac:(lia)) as Hfirst.
    rewrite Z2Nat.id, Z.add_0_l in Hfirst by lia.
    assert (Hi : findIndex_from p (schema c) 0 = i - 1).
    { apply Hfirst. split.
      - exists f. unfold index in Hf. case_decide; [|lia].
        split; [done|]. by apply Hp.
      - intros m g Hm' Hg. apply Hnp. apply (Hbefore m); [lia|done]. }
    rewrite Hi. rewrite bool_decide_eq_false_2 by lia.
    do 2 f_equal. lia.
Qed.

(** The lookup is insensitive to the case of the label as well: two
    labels that are equal after [toLowerCase] find the same column, or
    both find none (each error carrying its own label). *)
Theorem findColumn_label_case c (l1 l2 : string) :
  toLowerCase l1 = toLowerCase l2 →
  (∀ i, findColumn l1 c = (Return i, c) ↔ findColumn l2 c = (Return i, c))
  ∧ (findColumn l1 c = (Throw (ColumnNotFound l1), c)
     ↔ findColumn l2 c = (Throw (ColumnNotFound l2), c)).
Proof.
  intros Hl. rewrite !findColumn_unfold. cbn. rewrite Hl.
  split; [intros i|]; case_bool_decide; split; intros; congruence.
Qed.

(** [findColumn] and [getColumnName] against each other: the column that
    a label finds has that label as its name, up to case; the name of
    column [i] finds a column at or before [i], and [i] itself exactly
    when no earlier column has the same name up to case. Outside
    [1, columnCount], [getColumnName] and [getColumnType] throw a
    TypeError, whatever the position of the cursor. *)
Theorem column_name_round_trip c :
  (∀ label i, findColumn label c = (Return i, c) →
     ∃ nm, getColumnName i c = (Return nm, c)
           ∧ toLowerCase nm = toLowerCase label)
  ∧ (∀ i nm, getColumnName i c = (Return nm, c) →
     ∃ j, findColumn nm c = (Return j, c) ∧ 1 ≤ j ≤ i
          ∧ (j = i ↔ ∀ k g, k < i → index (schema c) (k - 1) = Some g →
                            ¬ matches nm g))
  ∧ (∀ i, ¬ (1 ≤ i ≤ len (schema c)) →
     getColumnName i c = (Throw TypeError, c)
     ∧ getColumnType i c = (Throw TypeError, c)).
Proof.
  split; [|split].
  - intros label i [(f & Hf & Hm) _]%findColumn_Return.
    exists (name f). unfold getColumnName, bind, this. by rewrite Hf.
  - intros i nm Hnm. unfold getColumnName, bind, this in Hnm.
    destruct (index (schema c) (i - 1)) as [f|] eqn:Hf; [|done].
    injection Hnm as <-.
    pose proof (index_Some_range _ _ _ Hf) as Hi.
    rewrite findColumn_unfold. cbn. unfold findIndex.
    set (p := λ s : SchemaField,
           bool_decide (toLowerCase (name s) = toLowerCase (name f))).
    assert (Hpf : p f = true) by (by apply bool_decide_eq_true).
    destruct (findIndex_from_range p (schema c) 0) as [Hnone|Hge].
    { apply (findIndex_from_none p (schema c) 0 ltac:(lia)) with (x := f)
        in Hnone; [congruence|].
      unfold index in Hf. case_decide; [|done].
      by eapply list_elem_of_lookup_2. }
    rewrite bool_decide_eq_false_2 by lia.
    set (j0 := findIndex_from p (schema c) 0) in *.
    pose proof (findIndex_from_first p (schema c) 0 (Z.to_nat j0)
                  ltac:(lia)) as Hfirst.
    rewrite Z2Nat.id, Z.add_0_l in Hfirst by lia.
    destruct (proj1 Hfirst eq_refl) as [(g & Hg & Hpg) Hbefore].
    assert (Hle : j0 ≤ i - 1).
    { destruct (decide (j0 ≤ i - 1)) as [|Hgt]; [done|]. exfalso.
      unfold index in Hf. case_decide; [|lia].
      rewrite (Hbefore (Z.to_nat (i - 1)) f) in Hpf; [done|lia|done]. }
    exists (j0 + 1). split; [done|]. split; [lia|]. split.
    + intros Hj k g' Hk Hg'. pose proof (index_Some_range _ _ _ Hg').
      unfold index in Hg'. case_decide; [|lia].
      unfold matches.
      apply (bool_decide_eq_false_1
               (toLowerCase (name g') = toLowerCase (name f))).
      apply (Hbefore (Z.to_nat (k - 1))); [lia|done].
    + intros Hearlier. destruct (decide (j0 = i - 1)) as [|Hne]; [lia|].
      exfalso. apply (Hearlier (j0 + 1) g); [lia| |].
      * rewrite Z.add_simpl_r. unfold index. by case_decide; [|lia].
      * by apply bool_decide_eq_true in Hpg.
  - intros i Hi. unfold getColumnName, getColumnType, bind, this.
    destruct (index (schema c) (i - 1)) as [f|] eqn:Hf; [|done].
    apply index_Some_range in Hf. lia.
Qed.

Lemma call_throw_resolve a column c e :
  resolveColumn column c = (Throw e, c) → call a column c = (Throw e, c).
Proof.
  intros Hcol.
  destruct a; unfold call, getDouble, getString, getInt, getFloat,
    getBoolean, getObject; unfold bind at 1; try unfold bind at 1;
    by rewrite Hcol.
Qed.

Lemma call_throw_value a column c (i : Z) e :
  resolveColumn column c = (Return i, c) → getValue i c = (Throw e, c) →
  call a column c = (Throw e, c).
Proof.
  intros Hcol Hv.
  destruct a; unfold call, getDouble, getString, getInt, getFloat,
    getBoolean, getObject; unfold bind at 1; try unfold bind at 1;
    rewrite Hcol; unfold bind at 1; by rewrite Hv.
Qed.

(** An accessor call that gets past the two checks of [getValue]. *)
Lemma call_value a column c (i : Z) f :
  resolveColumn column c = (Return i, c) → on_row c →
  index (schema c) (i - 1) = Some f →
  let v := cell_raw c (currentRow c) i in
  call a column c
  = (match a with
     | GetString => Return (value_of_raw v)
     | GetInt =>
         Return (VNumber (if is_null v then zero
                          else parseInt10 (text_of v)))
     | GetFloat | GetDouble =>
         Return (VNumber (if is_null v then zero
                          else parseFloat (text_of v)))
     | GetBoolean =>
         match v with
         | RNull => Return (VBoolean false)
         | RText s => Return (VBoolean (bool_decide (toLowerCase s = "true")))
         | RUndefined => Throw TypeError
         end
     | GetObject => coerce (data_type f) v
     end, set_wasNull (is_null v) c).
Proof.
  intros Hcol Hc Hf v. pose proof (index_Some_range _ _ _ Hf).
  destruct (index_in_range (data c) (currentRow c)) as (row & Hrow & _);
    [done|].
  pose proof (getValue_cell i c row Hrow ltac:(lia)) as Hv.
  assert (Hraw : v = match index row (i - 1) with
                     | Some x => raw_of_cell x
                     | None => RUndefined
                     end)
    by (subst v; unfold cell_raw; by rewrite Hrow).
  rewrite <- Hraw in Hv.
  assert (Hobj : getObject column c
                 = (coerce (data_type f) v, set_wasNull (is_null v) c)).
  { rewrite <- (getObject_coerce i c f Hc Hf). unfold getObject.
    by rewrite (bind_return _ _ _ _ _ Hcol). }
  destruct a; unfold call, getDouble, getString, getInt, getFloat, getBoolean;
    [| | | | |exact Hobj];
    unfold bind at 1; unfold bind at 1; rewrite Hcol;
    unfold bind at 1; rewrite Hv;
    unfold bind, assign_wasNull, ret, throw, lower_is_true;
    by destruct v.
Qed.

(** On a cell that is not null, [getObject] is the scalar accessor that
    matches the declared type of the column: [getInt] for Int32 and
    Int64, [getFloat] for Float32 and Float64, [getBoolean] for Boolean
    and [getString] for every other type; same value or same exception,
    same cursor afterwards. On a null cell it is [getString] whatever the
    type. *)
Theorem getObject_typed c column (i : Z) f :
  resolveColumn column c = (Return i, c) → on_row c →
  index (schema c) (i - 1) = Some f →
  (cell_raw c (currentRow c) i ≠ RNull →
     call GetObject column c = call (typed_accessor (data_type f)) column c)
  ∧ (cell_raw c (currentRow c) i = RNull →
     call GetObject column c = call GetString column c).
Proof.
  intros Hcol Hc Hf.
  rewrite (call_value GetObject column c i f Hcol Hc Hf).
  rewrite (call_value GetString column c i f Hcol Hc Hf).
  rewrite (call_value (typed_accessor (data_type f)) column c i f Hcol Hc Hf).
  split; intros Hv.
  - unfold typed_accessor, coerce.
    destruct (cell_raw c (currentRow c) i) as [| |s]; [|done|];
      repeat case_match; done.
  - by rewrite Hv.
Qed.

(** What an accessor call can do to the cursor. It never changes the
    grid, the schema or the position. When it throws anything but a
    TypeError it leaves the wasNull flag too. It throws a TypeError only
    on a valid row, at a cell missing from a row shorter than the schema,
    and then the flag has already been set to false. When it returns, the
    cursor is on a valid row, the column is one of the schema, and the
    flag says whether the cell is null. *)
Theorem accessor_frame a column c :
  same_view (call a column c).2 c
  ∧ (∀ e, (call a column c).1 = Throw e → e ≠ TypeError →
          (call a column c).2 = c)
  ∧ ((call a column c).1 = Throw TypeError →
     on_row c ∧ (call a column c).2 = set_wasNull false c
     ∧ ∃ i, resolveColumn column c = (Return i, c)
            ∧ 1 ≤ i ≤ len (schema c)
            ∧ cell_raw c (currentRow c) i = RUndefined)
  ∧ (∀ v, (call a column c).1 = Return v →
     on_row c
     ∧ ∃ i, resolveColumn column c = (Return i, c)
            ∧ 1 ≤ i ≤ len (schema c)
            ∧ (call a column c).2
              = set_wasNull (is_null (cell_raw c (currentRow c) i)) c).
Proof.
  destruct (resolveColumn_cases column c) as [[i Hi] | (label & -> & Hl)].
  2:{ rewrite (call_throw_resolve a _ c _ Hl). cbn.
      split; [done|]. split; [done|]. split; done. }
  destruct (decide (on_row c)) as [Hon|Hoff].
  2:{ rewrite (call_throw_value a _ c i _ Hi (getValue_off_row i c Hoff)).
      cbn. split; [done|]. split; [done|]. split; done. }
  destruct (decide (1 ≤ i ≤ len (schema c))) as [Hin|Hout].
  2:{ rewrite (call_throw_value a _ c i _ Hi
                 (getValue_bad_index i c Hon Hout)).
      cbn. split; [done|]. split; [done|]. split; done. }
  destruct (index_in_range (schema c) (i - 1)) as (f & Hf & _); [lia|].
  rewrite (call_value a column c i f Hi Hon Hf). cbn [fst snd].
  set (v := cell_raw c (currentRow c) i).
  split; [done|]. split; [|split].
  - intros e He Hne. exfalso.
    destruct a; try done; destruct v eqn:Hv; try done;
      try (injection He as <-; done).
    all: by apply coerce_throw in He as [_ ->].
  - intros He. split; [done|].
    assert (v = RUndefined) as Hv.
    { destruct a; try done; destruct v eqn:Hv; try done.
      all: by apply coerce_throw in He as [? _]. }
    rewrite Hv. split; [done|]. exists i. by rewrite <- Hv.
  - intros w Hw. split; [done|]. by exists i.
Qed.

End Accessors_more.

(** ** Iteration and bulk extraction *)

Section Iteration.
Context `{Host}.

Implicit Types (c : cursor) (row : object number).

Lemma spread_from_while (fuel : nat) (rows : list (object number)) c :
  spread_from fuel rows c = toArray_while fuel rows c.
Proof.
  revert rows c. induction fuel as [|fuel IH]; intros rows c; [done|].
  cbn [spread_from toArray_while]. unfold iterator_next.
  destruct (next c) as [[] c1]; [|done]. unfold bind, ret.
  destruct (toArray_for _ _ _ c1) as [[row|e] c2]; [apply IH|done].
Qed.

(** The column loop builds the record of the row the cursor is on. *)
Lemma toArray_for_record c row c' :
  on_row c →
  toArray_for (length (schema c)) 1 empty_object c = (Return row, c') →
  record_cells c (currentRow c) row.
Proof.
  intros Hon Hrun.
  destruct (toArray_for_spec (length (schema c)) 1 empty_object c)
    as [(c1 & j & Hthrow & _) | (row1 & Hret & Hlast & Hrest)];
    [done|lia|unfold len; lia|congruence|].
  rewrite Hret in Hrun. injection Hrun as <- _. split.
  - intros key j f Hkey Hf Hname Hlater.
    pose proof (index_Some_range _ _ _ Hf).
    apply (Hlast key j f); [done|lia|done..].
  - intros key Hnone. rewrite Hrest; [done|].
    intros j f _ Hf. apply Hnone.
    unfold index in Hf. case_decide; [|done].
    by eapply list_elem_of_lookup_2.
Qed.

(** Spreading the cursor ([[...resultSet]]) walks the same rows as
    [toArray()] and builds the same records, or throws the same
    exception, but it does not put the position back: when it returns,
    the cursor is at [rowCount], after the last row. [toArray()] is the
    spread followed by the restoring of the position. *)
Theorem spread_toArray c :
  toArray c
  = match spread c with
    | Some (Return rows, c') =>
        Some (Return rows, set_currentRow (currentRow c) c')
    | r => r
    end
  ∧ ∀ rows c', spread c = Some (Return rows, c') →
      currentRow c' = rowCount c
      ∧ (rowCount c ≠ 0 → isAfterLast c' = true).
Proof.
  unfold spread, toArray, toArray_fuel, iterator.
  rewrite spread_from_while. split.
  - by destruct (toArray_while _ _ _) as [[[rows|e] c']|].
  - intros rows c' Hrun.
    destruct (toArray_while_spec (length (data c)) [] (beforeFirst c))
      as (res & Hfuel & Hd & _ & Hres); [cbn; lia|cbn; unfold len; lia|].
    rewrite (Hfuel (S (length (data c)))) in Hrun by lia.
    injection Hrun as ->. cbn in *. destruct Hres as (Hpos & _).
    split; [done|]. intros HR. unfold isAfterLast. rewrite Hd, Hpos.
    unfold rowCount in HR. pose proof (len_nonneg (data c)).
    by rewrite !bool_decide_eq_true_2 by lia.
Qed.

Lemma coerce_throw_boolean (dataType : string) (v : raw) e :
  coerce dataType v = Throw e → dataType = "Boolean".
Proof.
  unfold coerce. destruct v; repeat case_match; try done. intros _.
  match goal with
  | H : bool_decide (_ = "Boolean") = true |- _ =>
      by apply bool_decide_eq_true_1 in H
  end.
Qed.

Lemma coerce_return_boolean (v : raw) x :
  coerce "Boolean" v = Return x → v ≠ RUndefined.
Proof. by intros Hv ->. Qed.

(** The column loop on a valid row throws exactly when the row lacks the
    cell of a Boolean column among the columns it has still to read. *)
Lemma toArray_for_boolean (n : nat) : ∀ (i : Z) row c,
  on_row c → 1 ≤ i → i + Z.of_nat n = len (schema c) + 1 →
  (∃ c' j f, toArray_for n i row c = (Throw TypeError, c')
             ∧ i ≤ j
             ∧ index (schema c) (j - 1) = Some f
             ∧ data_type f = "Boolean"
             ∧ cell_raw c (currentRow c) j = RUndefined)
  ∨ (∃ row' c', toArray_for n i row c = (Return row', c')
                ∧ ∀ j f, i ≤ j →
                         index (schema c) (j - 1) = Some f →
                         data_type f = "Boolean" →
                         cell_raw c (currentRow c) j ≠ RUndefined).
Proof.
  induction n as [|n IH]; intros i row c Hc Hi Hn.
  - right. exists row, c. split; [done|].
    intros j f Hj Hf. apply index_Some_range in Hf. lia.
  - destruct (index_in_range (schema c) (i - 1)) as (f & Hf & _); [lia|].
    rewrite toArray_for_S, Hf, (getObject_coerce i c f Hc Hf).
    destruct (coerce (data_type f) (cell_raw c (currentRow c) i))
      as [v|e] eqn:Hv.
    + set (c1 := set_wasNull (is_null (cell_raw c (currentRow c) i)) c).
      destruct (IH (i + 1) (assign (name f) v row) c1)
        as [(c' & j & g & Hthrow & Hj & Hg & Hbool & Hundef)
           | (row' & c' & Hret & Hrest)];
        [done|lia|cbn; lia|..].
      * left. exists c', j, g. split; [done|]. split; [lia|done].
      * right. exists row', c'. split; [done|].
        intros j g Hj Hg Hbool.
        destruct (decide (j = i)) as [->|Hji].
        -- assert (g = f) as -> by congruence.
           rewrite Hbool in Hv. by apply coerce_return_boolean in Hv.
        -- apply (Hrest j g); [lia|done..].
    + pose proof (coerce_throw_boolean _ _ _ Hv) as Hbool.
      apply coerce_throw in Hv as [Hv ->].
      left. eexists _, i, f. split; [done|]. split; [lia|done].
Qed.

(** The iterator keeps no position of its own: its [next()] moves the
    cursor itself, wherever navigation calls had left it. From the last
    row or beyond it reports done, and still moves the position one
    further. From a position whose successor is a row it moves to that
    row and then either throws a TypeError, which it does exactly when
    that row lacks the cell of a column declared Boolean, or yields the
    record of that row; the cursor stays on that row either way. In
    particular it yields the record of every row that has a cell for
    each column of the schema. *)
Theorem iterator_next_spec c :
  (rowCount c ≤ currentRow c + 1 →
     iterator_next c = (Return None, set_currentRow (currentRow c + 1) c))
  ∧ (-1 ≤ currentRow c → currentRow c + 1 < rowCount c →
     (lacks_boolean c (currentRow c + 1)
      ∧ ∃ c', iterator_next c = (Throw TypeError, c')
              ∧ same_view c' (set_currentRow (currentRow c + 1) c))
     ∨ (¬ lacks_boolean c (currentRow c + 1)
        ∧ ∃ row c', iterator_next c = (Return (Some row), c')
                    ∧ same_view c' (set_currentRow (currentRow c + 1) c)
                    ∧ record_of c (currentRow c + 1) row))
  ∧ (-1 ≤ currentRow c → currentRow c + 1 < rowCount c →
     (∀ j, 1 ≤ j ≤ len (schema c) →
           cell_raw c (currentRow c + 1) j ≠ RUndefined) →
     ∃ row c', iterator_next c = (Return (Some row), c')
               ∧ same_view c' (set_currentRow (currentRow c + 1) c)
               ∧ record_of c (currentRow c + 1) row).
Proof.
  assert (Hrow : -1 ≤ currentRow c → currentRow c + 1 < rowCount c →
            (lacks_boolean c (currentRow c + 1)
             ∧ ∃ c', iterator_next c = (Throw TypeError, c')
                     ∧ same_view c' (set_currentRow (currentRow c + 1) c))
            ∨ (¬ lacks_boolean c (currentRow c + 1)
               ∧ ∃ row c', iterator_next c = (Return (Some row), c')
                           ∧ same_view c'
                               (set_currentRow (currentRow c + 1) c)
                           ∧ record_of c (currentRow c + 1) row)).
  { intros Hlow Hnext. unfold iterator_next. rewrite next_unfold.
    rewrite bool_decide_eq_true_2 by done.
    set (c1 := set_currentRow (currentRow c + 1) c).
    assert (Hon : on_row c1) by (unfold on_row, rowCount in *; cbn; lia).
    unfold bind, ret.
    destruct (toArray_for_boolean (length (schema c1)) 1 empty_object c1)
      as [(c' & j & f & Hthrow & Hj & Hf & Hbool & Hundef)
         | (row & c' & Hret & Hnone)];
      [done|lia|unfold len; lia|..].
    - left. split; [by exists j, f|].
      exists c'. rewrite Hthrow. split; [done|].
      destruct (toArray_for_spec (length (schema c1)) 1 empty_object c1)
        as [(c2 & _ & Hthrow2 & Hsame & _) | (row2 & Hret2 & _)];
        [done|lia|unfold len; lia|..]; [|congruence].
      assert (c2 = c') as -> by congruence. done.
    - right. split.
      + intros (j & f & Hf & Hbool & Hundef).
        apply (Hnone j f); [|done..].
        apply index_Some_range in Hf. lia.
      + pose proof (toArray_for_record c1 row _ Hon Hret) as Hrec.
        rewrite Hret. exists row, c'. split; [done|]. split.
        * destruct (toArray_for_spec (length (schema c1)) 1 empty_object c1)
            as [(c2 & _ & Hthrow2 & _) | (row2 & Hret2 & _)];
            [done|lia|unfold len; lia|..]; [congruence|].
          rewrite Hret in Hret2. injection Hret2 as _ ->.
          change (schema c1) with (schema c).
          by destruct (length (schema c)).
        * apply record_of_cells; [lia|].
          by apply (record_cells_view c1 c). }
  split; [|split; [done|]].
  - intros Hend. unfold iterator_next. rewrite next_unfold.
    by rewrite bool_decide_eq_false_2 by lia.
  - intros Hlow Hnext Hfull.
    destruct (Hrow Hlow Hnext) as [[(j & f & Hf & _ & Hundef) _]|[_ Hyield]];
      [|done].
    apply index_Some_range in Hf. destruct (Hfull j); [lia|done].
Qed.

Lemma same_view_cell c1 c2 (r i : Z) :
  same_view c1 c2 → cell_raw c1 r i = cell_raw c2 r i.
Proof. intros (Hd & _ & _). unfold cell_raw. by rewrite Hd. Qed.

(** The column loop on two cursors that differ in the flag only. *)
Lemma toArray_for_view (n : nat) : ∀ (i : Z) row c1 c2,
  same_view c1 c2 → on_row c1 →
  1 ≤ i → i + Z.of_nat n = len (schema c1) + 1 →
  (toArray_for n i row c1).1 = (toArray_for n i row c2).1
  ∧ same_view (toArray_for n i row c1).2 (toArray_for n i row c2).2.
Proof.
  induction n as [|n IH]; intros i row c1 c2 Hview Hon Hi Hn; [done|].
  pose proof Hview as (Hd & Hs & Hr).
  assert (Hon2 : on_row c2)
    by (unfold on_row, rowCount in *; rewrite <- Hd, <- Hr; done).
  destruct (index_in_range (schema c1) (i - 1)) as (f & Hf & _); [lia|].
  assert (Hf2 : index (schema c2) (i - 1) = Some f) by (by rewrite <- Hs).
  rewrite !toArray_for_S, Hf, Hf2.
  rewrite (getObject_coerce i c1 f Hon Hf), (getObject_coerce i c2 f Hon2 Hf2).
  rewrite <- Hr, <- (same_view_cell c1 c2 _ _ Hview).
  destruct (coerce (data_type f) (cell_raw c1 (currentRow c1) i)) as [v|e].
  - apply IH; [done|done|lia|cbn; lia].
  - done.
Qed.

(** The row loop on two such cursors. *)
Lemma toArray_while_view (fuel : nat) : ∀ rows c1 c2,
  same_view c1 c2 → -1 ≤ currentRow c1 →
  result_of (toArray_while fuel rows c1)
  = result_of (toArray_while fuel rows c2).
Proof.
  induction fuel as [|fuel IH]; intros rows c1 c2 Hview Hlow; [done|].
  pose proof Hview as (Hd & Hs & Hr).
  cbn [toArray_while]. rewrite !next_unfold. unfold rowCount.
  rewrite <- Hd, <- Hr.
  case_bool_decide as Hmore; [|done].
  set (c1' := set_currentRow (currentRow c1 + 1) c1).
  set (c2' := set_currentRow (currentRow c1 + 1) c2).
  assert (Hview' : same_view c1' c2') by done.
  assert (Hon : on_row c1') by (unfold on_row, rowCount; cbn; lia).
  destruct (toArray_for_view (length (schema c1')) 1 empty_object c1' c2')
    as [Hout Hafter]; [done|done|lia|unfold len; lia|].
  replace (length (schema c2')) with (length (schema c1'))
    by (cbn; by rewrite Hs).
  destruct (toArray_for _ _ _ c1') as [o1 d1] eqn:E1.
  destruct (toArray_for _ _ _ c2') as [o2 d2] eqn:E2.
  cbn in Hout, Hafter. subst o2. destruct o1 as [row|e]; [|done].
  apply IH; [done|].
  destruct (toArray_for_spec (length (schema c1')) 1 empty_object c1')
    as [(c' & j & Hthrow & _) | (row1 & Hret & _)];
    [done|lia|unfold len; lia|congruence|].
  rewrite Hret in E1. injection E1 as _ <-.
  subst c1'. destruct (length _); cbn; lia.
Qed.

(** The records of [toArray()] depend on the grid and the schema only,
    not on the position of the cursor or on its flag: two cursors over
    the same grid and schema return the same records (or throw the same
    exception), and so does the spread. In particular [toArray()] gives
    the same after any navigation, and again when called a second
    time. *)
Theorem toArray_position_independent c1 c2 :
  data c1 = data c2 → schema c1 = schema c2 →
  result_of (toArray c1) = result_of (toArray c2)
  ∧ result_of (spread c1) = result_of (spread c2)
  ∧ (∀ ks, result_of (toArray (run ks c1)) = result_of (toArray c1))
  ∧ (∀ o c', toArray c1 = Some (o, c') → result_of (toArray c') = Some o).
Proof.
  assert (Hwhile : ∀ d1 d2, data d1 = data d2 → schema d1 = schema d2 →
            result_of (toArray d1) = result_of (toArray d2)
            ∧ result_of (spread d1) = result_of (spread d2)).
  { intros d1 d2 Hd Hs.
    assert (Hloop :
      result_of (toArray_while (S (length (data d1))) [] (beforeFirst d1))
      = result_of (toArray_while (S (length (data d2))) [] (beforeFirst d2))).
    { rewrite <- Hd. apply toArray_while_view; [done|cbn; lia]. }
    unfold spread, iterator, toArray, toArray_fuel.
    rewrite !spread_from_while. split; [|done].
    destruct (toArray_while _ _ (beforeFirst d1)) as [[[r1|e1] a1]|];
      destruct (toArray_while _ _ (beforeFirst d2)) as [[[r2|e2] a2]|];
      cbn in *; congruence. }
  intros Hd Hs. destruct (Hwhile c1 c2 Hd Hs) as [Harr Hspread].
  split; [done|]. split; [done|]. split.
  - intros ks. destruct (run_frame ks c1) as (Hd' & Hs' & _).
    by apply Hwhile.
  - intros o c' Hrun.
    destruct (toArray_outcome c1) as (res & Hfuel & Hd' & Hs' & _).
    assert (Hres : toArray c1 = Some res) by (apply Hfuel; lia).
    rewrite Hres in Hrun. injection Hrun as ->. cbn in Hd', Hs'.
    destruct (Hwhile c' c1 Hd' Hs') as [-> _]. by rewrite Hres.
Qed.

(** The row loop when it throws: the cursor is on the row with the
    missing cell. *)
Lemma toArray_while_throw (fuel : nat) : ∀ rows c e c',
  -1 ≤ currentRow c →
  toArray_while fuel rows c = Some (Throw e, c') →
  data c' = data c ∧ schema c' = schema c
  ∧ currentRow c < currentRow c' < rowCount c
  ∧ ∃ j, 1 ≤ j ≤ len (schema c)
         ∧ cell_raw c (currentRow c') j = RUndefined.
Proof.
  induction fuel as [|fuel IH]; intros rows c e c' Hlow Hrun; [done|].
  cbn [toArray_while] in Hrun. rewrite next_unfold in Hrun.
  case_bool_decide as Hmore; [|done]. unfold rowCount in *.
  set (c1 := set_currentRow (currentRow c + 1) c) in *.
  assert (Hon : on_row c1) by (unfold on_row, rowCount; cbn; lia).
  destruct (toArray_for_spec (length (schema c1)) 1 empty_object c1)
    as [(c2 & j & Hthrow & (Hd & Hs & Hr) & Hj & Hundef)
       | (row & Hret & _)]; [done|lia|unfold len; lia|..].
  - rewrite Hthrow in Hrun. injection Hrun as _ <-.
    cbn in Hd, Hs, Hr, Hj, Hundef.
    split; [done|]. split; [done|]. split; [lia|].
    exists j. split; [done|]. by rewrite Hr.
  - rewrite Hret in Hrun.
    set (c2 := match length (schema c1) with
               | O => c1
               | S _ =>
                   set_wasNull
                     (is_null (cell_raw c1 (currentRow c1)
                                 (len (schema c1)))) c1
               end) in Hrun.
    assert (Hview : data c2 = data c ∧ schema c2 = schema c
                    ∧ currentRow c2 = currentRow c + 1)
      by (subst c2; by destruct (length (schema c1))).
    destruct Hview as (Hd2 & Hs2 & Hr2).
    destruct (IH _ c2 e c' ltac:(lia) Hrun) as (Hd & Hs & Hr & j & Hj & Hu).
    rewrite Hd2, Hs2, Hr2 in *.
    split; [done|]. split; [done|]. split; [lia|].
    exists j. split; [done|]. unfold cell_raw in *. by rewrite <- Hd2.
Qed.

(** [toArray()] throws only a TypeError, only over a grid with a row
    shorter than the schema, and then it does not restore the position:
    the cursor is left on the row with the missing cell. *)
Theorem toArray_throws c e c' :
  toArray c = Some (Throw e, c') →
  e = TypeError ∧ ¬ full_rows c
  ∧ data c' = data c ∧ schema c' = schema c ∧ on_row c'
  ∧ ∃ j, 1 ≤ j ≤ len (schema c)
         ∧ cell_raw c (currentRow c') j = RUndefined.
Proof.
  intros Hrun.
  destruct (toArray_outcome c) as (res & Hfuel & _ & _ & Hres).
  assert (Hrun' : toArray c = Some res) by (apply Hfuel; lia).
  rewrite Hrun in Hrun'. injection Hrun' as <-. cbn in Hres.
  destruct Hres as [-> Hfull]. split; [done|]. split; [done|].
  unfold toArray, toArray_fuel in Hrun.
  destruct (toArray_while _ _ _) as [[[rows|e] c'']|] eqn:Hloop; [done| |done].
  injection Hrun as -> ->.
  destruct (toArray_while_throw _ _ (beforeFirst c) _ _ ltac:(cbn; lia) Hloop)
    as (Hd & Hs & Hr & j & Hj & Hu).
  cbn in Hd, Hs, Hr, Hj, Hu. unfold on_row, rowCount in *.
  rewrite Hd. split; [done|]. split; [done|].
  change (data (beforeFirst c)) with (data c) in Hr.
  split; [lia|]. by exists j.
Qed.

End Iteration.

(** ** The client *)

Section Base_url.

Import DatalatheClient.

Lemma append_String (a : Ascii.ascii) (s t : string) :
  String a s +:+ t = String a (s +:+ t).
Proof. done. Qed.

Lemma append_empty (t : string) : EmptyString +:+ t = t.
Proof. done. Qed.

Ltac append := rewrite ?append_String, ?append_empty.

Lemma strip_slashes (k : nat) :
  strip_trailing_slashes (slashes k) = EmptyString.
Proof.
  induction k as [|k IH]; [done|]. cbn [slashes]. append.
  cbn [strip_trailing_slashes]. rewrite IH.
  by rewrite !bool_decide_eq_true_2.
Qed.

Lemma strip_decompose (s : string) :
  ∃ k, s = strip_trailing_slashes s +:+ slashes k.
Proof.
  induction s as [|a s [k IH]]; [by exists 0%nat|].
  cbn [strip_trailing_slashes].
  destruct (bool_decide (String a EmptyString = "/")
            && bool_decide (strip_trailing_slashes s = EmptyString)) eqn:E.
  - apply andb_true_iff in E as [Ha%bool_decide_eq_true Hs%bool_decide_eq_true].
    exists (S k). rewrite Hs in IH. cbn [slashes]. append.
    rewrite append_empty in IH. rewrite <- IH. by injection Ha as ->.
  - exists k. append. by rewrite <- IH.
Qed.

Lemma strip_no_slash (s t : string) :
  strip_trailing_slashes s ≠ t +:+ "/".
Proof.
  revert t. induction s as [|a s IH]; intros t; cbn [strip_trailing_slashes].
  - destruct t; append; done.
  - destruct (bool_decide (String a EmptyString = "/")
              && bool_decide (strip_trailing_slashes s = EmptyString)) eqn:E.
    + destruct t; append; done.
    + destruct t as [|b t]; append.
      * intros [= -> Hs]. rewrite Hs in E.
        by rewrite !bool_decide_eq_true_2 in E.
      * intros [= -> Hs]. by apply (IH t).
Qed.

Lemma strip_app_slashes (s : string) (k : nat) :
  strip_trailing_slashes (s +:+ slashes k) = strip_trailing_slashes s.
Proof.
  induction s as [|a s IH]; append; [apply strip_slashes|].
  cbn [strip_trailing_slashes]. by rewrite IH.
Qed.

(** The base URL the client keeps is the one it was given without the
    slashes that end it, however many: it differs from the given one by
    trailing slashes only, does not end in a slash itself, and is the
    same for the given URL with more slashes added or with the slashes
    already removed. *)
Theorem baseUrl_stripped (base : string)
    (options : option DatalatheClientOptions) :
  (∃ k, base = baseUrl (new base options) +:+ slashes k)
  ∧ (∀ t, baseUrl (new base options) ≠ t +:+ "/")
  ∧ (∀ k, baseUrl (new (base +:+ slashes k) options)
          = baseUrl (new base options))
  ∧ baseUrl (new (baseUrl (new base options)) options)
    = baseUrl (new base options).
Proof.
  cbn. split; [apply strip_decompose|]. split; [apply strip_no_slash|].
  split; [apply strip_app_slashes|].
  destruct (strip_decompose base) as [k Hk].
  rewrite Hk at 2. by rewrite strip_app_slashes.
Qed.



End Base_url.

Section Staging.

Import DatalatheClient.

Context {W E J : Type}.
Context (fetchFn : string → RequestInit → W → (E + Response E J) * W).
Context (stringify : StageDataRequest → string).
Context (cast : J → StageDataResponse.t).

Implicit Types (self : client) (w : W) (sources : list SourceRequest).

(** The chip ids already collected are kept in front of the new ones. *)
Lemma createChips_loop_acc self sources chipId sourceType
    (chipIds : list string) w :
  createChips_loop fetchFn stringify cast self sources chipId sourceType
    chipIds w
  = match
      createChips_loop fetchFn stringify cast self sources chipId sourceType
        [] w
    with
    | (Resolved ids, w') => (Resolved (chipIds ++ ids)%list, w')
    | (Rejected f, w') => (Rejected f, w')
    end.
Proof.
  revert chipIds w. induction sources as [|source sources IH];
    intros chipIds w; cbn [createChips_loop app].
  - by rewrite app_nil_r.
  - destruct (sendCommand _ _ _ _ w) as [[response|f] w']; [|done].
    destruct (truthy _); [done|].
    rewrite IH, (IH [_]).
    destruct (createChips_loop _ _ _ _ _ _ _ [] w') as [[ids|f] w'']; [|done].
    by rewrite <- app_assoc.
Qed.

(** [createChips] stages its sources one after the other, in order, and
    stops at the first that fails: on a list [xs ++ ys] it behaves as on
    [xs] and then, only if that succeeded and from the state of the
    network it left, as on [ys], returning the chip ids of both in order;
    a failure in [xs] is the failure of the whole, no request is made for
    [ys], and the chip ids staged so far are not returned. A success
    returns one chip id per source, and no source means no request. *)
Theorem createChips_app self (xs ys : list SourceRequest)
    (chipId : option string) (sourceType : option SourceType) w :
  createChips fetchFn stringify cast self (xs ++ ys)%list chipId sourceType w
  = match createChips fetchFn stringify cast self xs chipId sourceType w with
    | (Rejected f, w1) => (Rejected f, w1)
    | (Resolved a, w1) =>
        match
          createChips fetchFn stringify cast self ys chipId sourceType w1
        with
        | (Resolved b, w2) => (Resolved (a ++ b)%list, w2)
        | (Rejected f, w2) => (Rejected f, w2)
        end
    end
  ∧ createChips fetchFn stringify cast self [] chipId sourceType w = (Resolved [], w)
  ∧ ∀ ids w',
      createChips fetchFn stringify cast self xs chipId sourceType w
      = (Resolved ids, w') →
      length ids = length xs.
Proof.
  unfold createChips. set (st := default MYSQL sourceType).
  split; [|split; [done|]].
  - generalize (@nil string) at 1 2. revert w.
    induction xs as [|x xs IH]; intros w acc; cbn [createChips_loop app].
    + apply createChips_loop_acc.
    + destruct (sendCommand _ _ _ _ w) as [[response|f] w']; [|done].
      destruct (truthy _); [done|]. apply IH.
  - intros ids w' Hrun.
    enough (Hlen : ∀ acc w,
              createChips_loop fetchFn stringify cast self xs chipId st acc w
              = (Resolved ids, w') →
              length ids = (length acc + length xs)%nat)
      by apply (Hlen [] w Hrun).
    clear. induction xs as [|x xs IH]; intros acc w; cbn [createChips_loop].
    + intros [= <- _]. cbn. lia.
    + destruct (sendCommand _ _ _ _ w) as [[response|f] w'']; [|done].
      destruct (truthy _); [done|]. intros Hrun.
      rewrite (IH _ _ Hrun), length_app. cbn. lia.
Qed.


End Staging.

(** ** The further theorems at concrete inputs *)

Section Examples_more.

#[local] Existing Instance Sample.host.

Ltac at_fixture :=
  unfold Sample.on_second, Sample.on_third, Sample.fresh, Canned.short_cursor,
    on_row, rowCount, len, run;
  cbn.

(** [absolute_spec] on the three rows of the fixture. *)
Lemma absolute_spec_witness :
  (1 ≤ 2 ≤ rowCount Sample.fresh
   ∧ - rowCount Sample.fresh ≤ -1 ≤ -1
   ∧ (4 = 0 ∨ rowCount Sample.fresh < 4 ∨ 4 < - rowCount Sample.fresh))
  ∧ absolute 2 Sample.fresh = (true, set_currentRow (2 - 1) Sample.fresh)
  ∧ absolute (-1) Sample.fresh
    = (true, set_currentRow (rowCount Sample.fresh + -1) Sample.fresh)
  ∧ absolute 4 Sample.fresh
    = (false, set_currentRow (rowCount Sample.fresh) Sample.fresh).
Proof.
  assert (H1 : 1 ≤ 2 ≤ rowCount Sample.fresh) by (at_fixture; lia).
  assert (H2 : - rowCount Sample.fresh ≤ -1 ≤ -1) by (at_fixture; lia).
  assert (H3 : 4 = 0 ∨ rowCount Sample.fresh < 4
               ∨ 4 < - rowCount Sample.fresh)
    by (right; left; at_fixture; lia).
  split; [done|].
  split; [exact (proj1 (absolute_spec Sample.fresh 2) H1)|].
  split; [exact (proj1 (proj2 (absolute_spec Sample.fresh (-1))) H2)|].
  exact (proj2 (proj2 (absolute_spec Sample.fresh 4)) H3).
Defined.

(** [relative_spec] on the fixture: on the second row, on the first row,
    and from the first row with [relative(-2)], which lands on the last
    row. *)
Lemma relative_spec_witness :
  (-1 ≤ currentRow Sample.on_second < rowCount Sample.on_second
   ∧ 1 ≤ currentRow Sample.on_second ≤ rowCount Sample.on_second
   ∧ currentRow (set_currentRow 0 Sample.fresh) = 0
   ∧ - rowCount (set_currentRow 0 Sample.fresh)
     ≤ currentRow (set_currentRow 0 Sample.fresh) + 1 + -2 < 0)
  ∧ relative 1 Sample.on_second = next Sample.on_second
  ∧ relative (-1) Sample.on_second = previous Sample.on_second
  ∧ previous (set_currentRow 0 Sample.fresh)
    = (false, set_currentRow 0 Sample.fresh)
  ∧ relative (-2) (set_currentRow 0 Sample.fresh)
    = (true,
       set_currentRow
         (rowCount (set_currentRow 0 Sample.fresh)
          + (currentRow (set_currentRow 0 Sample.fresh) + 1 + -2))
         (set_currentRow 0 Sample.fresh)).
Proof.
  assert (H1 : -1 ≤ currentRow Sample.on_second < rowCount Sample.on_second)
    by (at_fixture; lia).
  assert (H2 : 1 ≤ currentRow Sample.on_second ≤ rowCount Sample.on_second)
    by (at_fixture; lia).
  assert (H3 : currentRow (set_currentRow 0 Sample.fresh) = 0) by reflexivity.
  assert (H4 : - rowCount (set_currentRow 0 Sample.fresh)
               ≤ currentRow (set_currentRow 0 Sample.fresh) + 1 + -2 < 0)
    by (at_fixture; lia).
  destruct (relative_spec Sample.on_second 0) as (Hn & Hp & _).
  destruct (relative_spec (set_currentRow 0 Sample.fresh) (-2))
    as (_ & _ & Hfirst & Hwrap).
  split; [done|]. split; [exact (Hn H1)|]. split; [exact (Hp H2)|].
  split; [exact (proj2 (Hfirst H3))|exact (Hwrap H4)].
Defined.

(** [next_previous] on the last row of the fixture, where both round
    trips return to it; on its first row, where [previous()] then
    [next()] ends on the second; and on the fresh cursor. *)
Lemma next_previous_witness :
  (0 ≤ currentRow Sample.on_third
   ∧ 1 ≤ currentRow Sample.on_third
   ∧ currentRow (next Sample.fresh).2 ≤ 0
   ∧ currentRow Sample.fresh = -1)
  ∧ next Sample.on_third = (false, (next Sample.on_third).2)
  ∧ previous (next Sample.on_third).2 = (true, Sample.on_third)
  ∧ next (previous Sample.on_third).2
    = (bool_decide (currentRow Sample.on_third < rowCount Sample.on_third),
       Sample.on_third)
  ∧ previous (next Sample.fresh).2 = (false, (next Sample.fresh).2)
  ∧ currentRow (next (previous (next Sample.fresh).2).2).2 = 1
  ∧ previous (next Sample.fresh).2 = (false, set_currentRow 0 Sample.fresh).
Proof.
  assert (H1 : 0 ≤ currentRow Sample.on_third) by (at_fixture; lia).
  assert (H2 : 1 ≤ currentRow Sample.on_third) by (at_fixture; lia).
  assert (H3 : currentRow (next Sample.fresh).2 ≤ 0) by (at_fixture; lia).
  assert (H4 : currentRow Sample.fresh = -1) by reflexivity.
  destruct (next_previous Sample.on_third) as (Hnp & Hpn & _).
  destruct (next_previous (next Sample.fresh).2) as (_ & _ & Hfirst & _).
  destruct (next_previous Sample.fresh) as (_ & _ & _ & Hbefore).
  split; [done|]. split; [reflexivity|]. split; [exact (proj2 (Hnp H1))|].
  split; [exact (proj2 (Hpn H2))|].
  split; [exact (proj1 (Hfirst H3))|].
  split; [|exact (Hbefore H4)].
  rewrite (proj2 (Hfirst H3)). reflexivity.
Defined.

(** [position_checks] on the empty grid and on the last row of the
    fixture. *)
Lemma position_checks_witness :
  (rowCount (new Sample.empty) = 0
   ∧ rowCount Sample.on_third ≠ 0 ∧ -1 ≤ currentRow Sample.on_third
   ∧ on_row Sample.on_third)
  ∧ isBeforeFirst (new Sample.empty) = false
  ∧ getRow (new Sample.empty) = 0
  ∧ (isLast Sample.on_third = true
     ↔ getRow Sample.on_third = rowCount Sample.on_third)
  ∧ getRow Sample.on_third = currentRow Sample.on_third + 1.
Proof.
  assert (H1 : rowCount (new Sample.empty) = 0) by reflexivity.
  assert (H2 : rowCount Sample.on_third ≠ 0) by (at_fixture; lia).
  assert (H3 : -1 ≤ currentRow Sample.on_third) by (at_fixture; lia).
  assert (H4 : on_row Sample.on_third) by (at_fixture; lia).
  destruct (position_checks (new Sample.empty)) as (Hempty & _).
  destruct (position_checks Sample.on_third) as (_ & Hrows & _ & Hrow).
  destruct (Hempty H1) as (Hb & _ & _ & _ & Hg).
  destruct (Hrows H2 H3) as (_ & _ & _ & _ & Hl).
  split; [done|]. split; [exact Hb|]. split; [exact Hg|].
  split; [exact Hl|exact (Hrow H4)].
Defined.

(** [first_last] on the fixture and on the empty grid. *)
Lemma first_last_witness :
  (rowCount Sample.on_second ≠ 0 ∧ rowCount (new Sample.empty) = 0)
  ∧ next (beforeFirst Sample.on_second) = first Sample.on_second
  ∧ previous (afterLast Sample.on_second) = last Sample.on_second
  ∧ last (new Sample.empty) = (false, new Sample.empty).
Proof.
  assert (H1 : rowCount Sample.on_second ≠ 0) by (at_fixture; lia).
  assert (H2 : rowCount (new Sample.empty) = 0) by reflexivity.
  destruct (first_last Sample.on_second) as [Hrows _].
  destruct (first_last (new Sample.empty)) as [_ Hempty].
  destruct (Hrows H1) as (_ & _ & _ & _ & Hn & Hp).
  split; [done|]. split; [exact Hn|]. split; [exact Hp|].
  exact (proj2 (Hempty H2)).
Defined.

(** [findColumn_label_case] on the fixture for two spellings of a
    label. *)
Lemma findColumn_label_case_witness :
  toLowerCase "Score" = toLowerCase "SCORE"
  ∧ (findColumn "Score" Sample.fresh = (Return 5, Sample.fresh)
     ↔ findColumn "SCORE" Sample.fresh = (Return 5, Sample.fresh)).
Proof.
  assert (Hcase : toLowerCase "Score" = toLowerCase "SCORE") by reflexivity.
  split; [done|].
  exact (proj1 (findColumn_label_case Sample.fresh "Score" "SCORE" Hcase) 5).
Defined.

(** [column_name_round_trip] on the fixture. *)
Lemma column_name_round_trip_witness :
  (findColumn "NAME" Sample.fresh = (Return 2, Sample.fresh)
   ∧ getColumnName 2 Sample.fresh = (Return "name", Sample.fresh)
   ∧ ¬ (1 ≤ 6 ≤ len (schema Sample.fresh)))
  ∧ (∃ nm, getColumnName 2 Sample.fresh = (Return nm, Sample.fresh)
           ∧ toLowerCase nm = toLowerCase "NAME")
  ∧ (∃ j, findColumn "name" Sample.fresh = (Return j, Sample.fresh)
          ∧ 1 ≤ j ≤ 2)
  ∧ getColumnType 6 Sample.fresh = (Throw TypeError, Sample.fresh).
Proof.
  assert (H1 : findColumn "NAME" Sample.fresh = (Return 2, Sample.fresh))
    by reflexivity.
  assert (H2 : getColumnName 2 Sample.fresh = (Return "name", Sample.fresh))
    by reflexivity.
  assert (H3 : ¬ (1 ≤ 6 ≤ len (schema Sample.fresh))) by (at_fixture; lia).
  destruct (column_name_round_trip Sample.fresh) as (Hfind & Hname & Hout).
  destruct (Hname 2 "name" H2) as (j & Hj & Hle & _).
  split; [done|]. split; [exact (Hfind "NAME" 2 H1)|].
  split; [by exists j|]. exact (proj2 (Hout 6 H3)).
Defined.

(** [getObject_typed] on the age (Int32) and the name (Utf8, null) of the
    rows of the fixture. *)
Lemma getObject_typed_witness :
  (resolveColumn (ByName "age") Sample.on_second = (Return 3, Sample.on_second)
   ∧ on_row Sample.on_second
   ∧ index (schema Sample.on_second) (3 - 1)
     = Some {| name := "age"; data_type := "Int32" |}
   ∧ cell_raw Sample.on_second (currentRow Sample.on_second) 3 ≠ RNull
   ∧ resolveColumn (ByIndex 2) Sample.on_third = (Return 2, Sample.on_third)
   ∧ on_row Sample.on_third
   ∧ index (schema Sample.on_third) (2 - 1)
     = Some {| name := "name"; data_type := "Utf8" |}
   ∧ cell_raw Sample.on_third (currentRow Sample.on_third) 2 = RNull)
  ∧ call GetObject (ByName "age") Sample.on_second
    = call (typed_accessor "Int32") (ByName "age") Sample.on_second
  ∧ call GetObject (ByIndex 2) Sample.on_third
    = call GetString (ByIndex 2) Sample.on_third.
Proof.
  assert (H1 : resolveColumn (ByName "age") Sample.on_second
               = (Return 3, Sample.on_second)) by reflexivity.
  assert (H2 : on_row Sample.on_second) by (at_fixture; lia).
  assert (H3 : index (schema Sample.on_second) (3 - 1)
               = Some {| name := "age"; data_type := "Int32" |})
    by reflexivity.
  assert (H4 : cell_raw Sample.on_second (currentRow Sample.on_second) 3
               ≠ RNull) by (vm_compute; discriminate).
  assert (H5 : resolveColumn (ByIndex 2) Sample.on_third
               = (Return 2, Sample.on_third)) by reflexivity.
  assert (H6 : on_row Sample.on_third) by (at_fixture; lia).
  assert (H7 : index (schema Sample.on_third) (2 - 1)
               = Some {| name := "name"; data_type := "Utf8" |})
    by reflexivity.
  assert (H8 : cell_raw Sample.on_third (currentRow Sample.on_third) 2
               = RNull) by reflexivity.
  split; [done|]. split.
  - exact (proj1 (getObject_typed Sample.on_second (ByName "age") 3 _
                    H1 H2 H3) H4).
  - exact (proj2 (getObject_typed Sample.on_third (ByIndex 2) 2 _
                    H5 H6 H7) H8).
Defined.

(** [accessor_frame] on the short row: [getBoolean] of the missing cell
    throws a TypeError and leaves the flag false, [getInt] of the id
    returns. *)
Lemma accessor_frame_witness :
  ((call GetBoolean (ByIndex 2) (set_wasNull true Canned.short_cursor)).1
   = Throw TypeError
   ∧ (call GetInt (ByIndex 1) Canned.short_cursor).1
     = Return (VNumber (Sample.IntOf "1")))
  ∧ (call GetBoolean (ByIndex 2) (set_wasNull true Canned.short_cursor)).2
    = set_wasNull false (set_wasNull true Canned.short_cursor)
  ∧ on_row Canned.short_cursor.
Proof.
  assert (H1 : (call GetBoolean (ByIndex 2)
                  (set_wasNull true Canned.short_cursor)).1
               = Throw TypeError) by reflexivity.
  assert (H2 : (call GetInt (ByIndex 1) Canned.short_cursor).1
               = Return (VNumber (Sample.IntOf "1"))) by reflexivity.
  destruct (accessor_frame GetBoolean (ByIndex 2)
              (set_wasNull true Canned.short_cursor)) as (_ & _ & Hthrow & _).
  destruct (accessor_frame GetInt (ByIndex 1) Canned.short_cursor)
    as (_ & _ & _ & Hret).
  destruct (Hthrow H1) as (_ & Hstate & _).
  destruct (Hret _ H2) as (Hon & _).
  split; [done|]. split; [exact Hstate|exact Hon].
Defined.

(** [spread_toArray] on the fixture, from the second row. *)
Lemma spread_toArray_witness :
  (spread Sample.on_second
   = Some (Return Sample.second_rows, Canned.spread_after)
   ∧ rowCount Sample.on_second ≠ 0)
  ∧ currentRow Canned.spread_after = rowCount Sample.on_second
  ∧ isAfterLast Canned.spread_after = true.
Proof.
  assert (H1 : spread Sample.on_second
               = Some (Return Sample.second_rows, Canned.spread_after))
    by (vm_compute; reflexivity).
  assert (H2 : rowCount Sample.on_second ≠ 0) by (at_fixture; lia).
  destruct (spread_toArray Sample.on_second) as [_ Hpos].
  destruct (Hpos _ _ H1) as [Hend Hafter].
  split; [done|]. split; [exact Hend|exact (Hafter H2)].
Defined.

(** [iterator_next_spec] on the last row of the fixture, where the
    iterator is done; on its fresh cursor, whose first row is complete
    and is yielded; and on the grid whose only row lacks the cell of its
    Boolean column, where the iterator throws. *)
Lemma iterator_next_spec_witness :
  (rowCount Sample.on_third ≤ currentRow Sample.on_third + 1
   ∧ -1 ≤ currentRow Sample.fresh
   ∧ currentRow Sample.fresh + 1 < rowCount Sample.fresh
   ∧ (∀ j, 1 ≤ j ≤ len (schema Sample.fresh) →
           cell_raw Sample.fresh (currentRow Sample.fresh + 1) j
           ≠ RUndefined)
   ∧ -1 ≤ currentRow (new Canned.short_row)
   ∧ currentRow (new Canned.short_row) + 1 < rowCount (new Canned.short_row)
   ∧ lacks_boolean (new Canned.short_row)
       (currentRow (new Canned.short_row) + 1))
  ∧ iterator_next Sample.on_third
    = (Return None,
       set_currentRow (currentRow Sample.on_third + 1) Sample.on_third)
  ∧ (∃ row c', iterator_next Sample.fresh = (Return (Some row), c')
               ∧ same_view c'
                   (set_currentRow (currentRow Sample.fresh + 1) Sample.fresh)
               ∧ record_of Sample.fresh (currentRow Sample.fresh + 1) row)
  ∧ (∃ c', iterator_next (new Canned.short_row) = (Throw TypeError, c')
           ∧ same_view c'
               (set_currentRow (currentRow (new Canned.short_row) + 1)
                  (new Canned.short_row))).
Proof.
  assert (H1 : rowCount Sample.on_third ≤ currentRow Sample.on_third + 1)
    by (at_fixture; lia).
  assert (H2 : -1 ≤ currentRow Sample.fresh) by (at_fixture; lia).
  assert (H3 : currentRow Sample.fresh + 1 < rowCount Sample.fresh)
    by (at_fixture; lia).
  assert (H4 : ∀ j, 1 ≤ j ≤ len (schema Sample.fresh) →
                    cell_raw Sample.fresh (currentRow Sample.fresh + 1) j
                    ≠ RUndefined).
  { intros j Hj.
    assert (j = 1 ∨ j = 2 ∨ j = 3 ∨ j = 4 ∨ j = 5)
      as [->|[->|[->|[->| ->]]]]
      by (revert Hj; at_fixture; lia);
      vm_compute; discriminate. }
  assert (H5 : -1 ≤ currentRow (new Canned.short_row)) by (cbn; lia).
  assert (H6 : currentRow (new Canned.short_row) + 1
               < rowCount (new Canned.short_row)) by (vm_compute; reflexivity).
  assert (H7 : lacks_boolean (new Canned.short_row)
                 (currentRow (new Canned.short_row) + 1)).
  { exists 2, {| name := "active"; data_type := "Boolean" |}.
    split; [reflexivity|]. split; reflexivity. }
  destruct (iterator_next_spec Sample.on_third) as (Hend & _).
  destruct (iterator_next_spec Sample.fresh) as (_ & _ & Hfull).
  destruct (iterator_next_spec (new Canned.short_row)) as (_ & Hrow & _).
  split; [done|]. split; [exact (Hend H1)|].
  split; [exact (Hfull H2 H3 H4)|].
  destruct (Hrow H5 H6) as [[_ Hthrow]|[Hno _]];
    [exact Hthrow|destruct (Hno H7)].
Defined.

(** [toArray_position_independent] on the fresh cursor of the fixture and
    the cursor on its second row. *)
Lemma toArray_position_independent_witness :
  (data Sample.fresh = data Sample.on_second
   ∧ schema Sample.fresh = schema Sample.on_second
   ∧ toArray Sample.fresh
     = Some (Return Sample.fresh_rows, Sample.fresh_after))
  ∧ result_of (toArray Sample.fresh) = result_of (toArray Sample.on_second)
  ∧ result_of (toArray Sample.fresh_after) = Some (Return Sample.fresh_rows).
Proof.
  assert (H1 : data Sample.fresh = data Sample.on_second) by reflexivity.
  assert (H2 : schema Sample.fresh = schema Sample.on_second) by reflexivity.
  assert (H3 : toArray Sample.fresh
               = Some (Return Sample.fresh_rows, Sample.fresh_after))
    by (vm_compute; reflexivity).
  destruct (toArray_position_independent Sample.fresh Sample.on_second H1 H2)
    as (Hsame & _ & _ & Hagain).
  split; [done|]. split; [exact Hsame|exact (Hagain _ _ H3)].
Defined.

(** [toArray_throws] on the short row. *)
Lemma toArray_throws_witness :
  toArray (new Canned.short_row) = Some (Throw TypeError, Canned.short_after)
  ∧ ¬ full_rows (new Canned.short_row)
  ∧ on_row Canned.short_after
  ∧ ¬ on_row (new Canned.short_row).
Proof.
  assert (H1 : toArray (new Canned.short_row)
               = Some (Throw TypeError, Canned.short_after))
    by (vm_compute; reflexivity).
  destruct (toArray_throws _ _ _ H1) as (_ & Hfull & _ & _ & Hon & _).
  split; [done|]. split; [exact Hfull|]. split; [exact Hon|].
  unfold on_row. cbn. lia.
Defined.


(** [createChips_app] on testCreateChipsMultipleSources: two sources, two
    requests, two chip ids. *)
Lemma createChips_app_witness :
  Canned.stage Canned.two_chips [Canned.users] Canned.start
  = (DatalatheClient.Resolved ["chip1"], Canned.after_users)
  ∧ Canned.stage Canned.two_chips [Canned.users; Canned.orders] Canned.start
    = match Canned.stage Canned.two_chips [Canned.orders] Canned.after_users
      with
      | (DatalatheClient.Resolved b, w2) =>
          (DatalatheClient.Resolved (["chip1"] ++ b)%list, w2)
      | (DatalatheClient.Rejected f, w2) => (DatalatheClient.Rejected f, w2)
      end
  ∧ length ["chip1"] = length [Canned.users].
Proof.
  assert (H1 : Canned.stage Canned.two_chips [Canned.users] Canned.start
               = (DatalatheClient.Resolved ["chip1"], Canned.after_users))
    by (vm_compute; reflexivity).
  destruct (createChips_app (Canned.fetch Canned.two_chips) Canned.stringify
              id Canned.local [Canned.users] [Canned.orders] None None
              Canned.start) as (Happ & _ & Hlen).
  split; [exact H1|]. split.
  - unfold Canned.stage in *. rewrite H1 in Happ. exact Happ.
  - exact (Hlen _ _ H1).
Defined.


End Examples_more.
